(** * WhenToChat: a shallow embedding of the plugin's server code

    The development follows the revision of [server/plugin.go] in which
    [allUsers] takes a limit and [compactDisplay] exists.  The functions
    [location] and [arrangeUserFirst] are the same text in every revision
    of the file, and so is [window] but for the oldest, where the boolean
    result has the opposite sense.

    Conventions.
    - A [*time.Location] is an [option Location]; [None] is the nil pointer.
    - A [time.Time] is the instant it denotes, in seconds since the Unix
      epoch.  The program only ever builds instants on whole seconds and
      compares them with [After], [Before] and [Equal], which ignore the
      location a [Time] carries; the location is passed explicitly where
      the program reads a wall clock ([Year/Month/Day], [In], [Format]).
    - A zone has one UTC offset (no daylight-saving transitions), and a
      calendar date (year, month, day) is the number of the day since
      1970-01-01.
    - Go slices hold pointers to users that nobody mutates, so a slice is
      a [list User].
    - [time.Now], the host's [GetUsersInChannel] and [SendEphemeralPost]
      are effects: they are recorded in a trace, and the answers of the
      outside world are the fields of a [World]. *)

From Stdlib Require Import ZArith Lia Ascii.
From stdpp Require Import base option list strings gmap pretty.

Local Open Scope string_scope.
Local Open Scope Z_scope.

(** ** The Go standard library, as far as the plugin uses it *)

Module strconv.

(** [strconv.ParseBool]: [None] is the syntax error. *)
Definition ParseBool (str : string) : option bool :=
  if bool_decide (str ∈ ["1"; "t"; "T"; "true"; "TRUE"; "True"]) then Some true
  else if bool_decide (str ∈ ["0"; "f"; "F"; "false"; "FALSE"; "False"]) then Some false
  else None.

End strconv.

Module time.

(** Seconds since 1970-01-01T00:00:00Z. *)
Definition Time := Z.

Record Location := mkLocation {
  name : string;      (* what [Location.String] prints *)
  abbrev : string;    (* what the layout element MST prints *)
  offset : Z          (* seconds east of UTC *)
}.

#[global] Instance Location_eq_dec : EqDecision Location.
Proof. solve_decision. Defined.

Definition utcLoc : Location := mkLocation "UTC" "UTC" 0.
Definition UTC : option Location := Some utcLoc.

(** [Location.get]: a nil receiver stands for UTC. *)
Definition Location_get (l : option Location) : Location :=
  match l with
  | None => utcLoc
  | Some l => l
  end.

(** [Location.String] *)
Definition Location_String (l : option Location) : string := name (Location_get l).

(** The zero [Time]: January 1, year 1, 00:00:00 UTC. *)
Definition zero : Time := -62135596800.

Definition After (t u : Time) : bool := bool_decide (u < t).
Definition Before (t u : Time) : bool := bool_decide (t < u).
Definition Equal (t u : Time) : bool := bool_decide (t = u).

(** Wall clock of an instant in a zone, in seconds since the zone's
    1970-01-01T00:00:00. *)
Definition wall (t : Time) (l : Location) : Z := t + offset l.

(** The calendar date of an instant in a zone, as a day number
    ([Year], [Month] and [Day] together). *)
Definition civil_day (t : Time) (l : Location) : Z := wall t l `div` 86400.

Definition second_of_day (t : Time) (l : Location) : Z := wall t l `mod` 86400.

(** [time.Date(y, m, d, hour, 0, 0, 0, loc)] with (y, m, d) the day [day]. *)
Definition Date (day hour : Z) (l : Location) : Time :=
  day * 86400 + hour * 3600 - offset l.

Fixpoint containsDotDot (s : string) : bool :=
  match s with
  | String "."%char (String "."%char _) => true
  | String _ rest => containsDotDot rest
  | EmptyString => false
  end.

Definition leadingSlash (s : string) : bool :=
  match s with
  | String "/"%char _ | String "\"%char _ => true
  | _ => false
  end.

Section zoneinfo.
(** The system's zone database (name to abbreviation and offset) and the
    zone of the machine the plugin runs on. *)
Variable tzdata : string → option (string * Z).
Variable localzone : string * Z.

Definition localLoc : Location := mkLocation "Local" localzone.1 localzone.2.

(** [time.LoadLocation]: [None] is the error result. *)
Definition LoadLocation (nm : string) : option Location :=
  if bool_decide (nm = "" ∨ nm = "UTC") then UTC
  else if bool_decide (nm = "Local") then Some localLoc
  else if containsDotDot nm || leadingSlash nm then None
  else match tzdata nm with
       | Some (ab, off) => Some (mkLocation nm ab off)
       | None => None
       end.
End zoneinfo.

(** Layout "3:04pm" *)
Definition two_digits (n : Z) : string :=
  if bool_decide (n < 10) then "0" +:+ pretty n else pretty n.

Definition Format_3_04pm (t : Time) (l : Location) : string :=
  let sod := second_of_day t l in
  let hour := sod `div` 3600 in
  let minute := (sod `mod` 3600) `div` 60 in
  let hr := if bool_decide (hour `mod` 12 = 0) then 12 else hour `mod` 12 in
  pretty hr +:+ ":" +:+ two_digits minute +:+ (if bool_decide (12 ≤ hour)%Z then "pm" else "am").

(** Layout "(MST)" *)
Definition Format_MST (t : Time) (l : Location) : string :=
  "(" +:+ abbrev l +:+ ")".

End time.

Module gostrings.

Definition asciiSpace (c : ascii) : bool :=
  bool_decide (c ∈ [" "; "009"; "010"; "011"; "012"; "013"]%char).

(** [strings.Fields] on ASCII input: the maximal runs of non-space bytes. *)
Fixpoint fields_go (cur : string) (s : string) : list string :=
  match s with
  | EmptyString => if bool_decide (cur = "") then [] else [String.rev cur]
  | String c rest =>
      if asciiSpace c
      then (if bool_decide (cur = "") then fields_go "" rest
            else String.rev cur :: fields_go "" rest)
      else fields_go (String c cur) rest
  end.

Definition Fields (s : string) : list string := fields_go "" s.

End gostrings.

(** ** The Mattermost model package *)

Module model.

Record User := mkUser {
  Id : string;
  Username : string;
  FirstName : string;
  LastName : string;
  IsBot : bool;
  Timezone : gmap string string
}.

Record Post := mkPost {
  UserId : string;
  ChannelId : string;
  Message : string
}.

(** [User.GetFullName] *)
Definition GetFullName (u : User) : string :=
  if bool_decide (FirstName u ≠ "" ∧ LastName u ≠ "") then FirstName u +:+ " " +:+ LastName u
  else if bool_decide (FirstName u ≠ "") then FirstName u
  else if bool_decide (LastName u ≠ "") then LastName u
  else "".

(** [User.GetDisplayName] at the format full_name *)
Definition GetDisplayName_full_name (u : User) : string :=
  if bool_decide (GetFullName u ≠ "") then GetFullName u else Username u.

End model.

Import model.

(** A read of a Go [map[string]string]: a missing key reads as [""]. *)
Definition map_get (m : gmap string string) (k : string) : string :=
  default "" (m !! k).

(** ** The outside world and the effects of the plugin *)

(** What the environment answers:
    - [tzdata], [localzone]: the zone database and the zone of the server;
    - [clock k]: the instant the k-th call of [time.Now] returns;
    - [api_GetUsersInChannel channelID sortBy page perPage]: the host's
      answer, a batch or the text of an error;
    - [range_order]: the order in which a [range] over a Go map visits the
      entries of the map (Go leaves it unspecified). *)
Record World := mkWorld {
  tzdata : string → option (string * Z);
  localzone : string * Z;
  clock : nat → time.Time;
  api_GetUsersInChannel : string → string → nat → nat → list User + string;
  range_order : list (string * list User) → list (string * list User)
}.

Inductive Event :=
| EvGetUsersInChannel (channelID sortBy : string) (page perPage : nat)
| EvNow
| EvSendEphemeralPost (userID : string) (post : Post).

(** [ticks] counts the calls of [time.Now] so far; [trace] lists the
    effects in the order they happened. *)
Record State := mkState {
  ticks : nat;
  trace : list Event
}.

Definition emit (e : Event) (st : State) : State :=
  mkState (ticks st) (trace st ++ [e]).

(** How a run of effectful code ends: with a value, with a Go panic, or
    with the loop budget of the model used up. *)
Inductive Outcome (A : Type) :=
| Val (a : A)
| Panic
| OutOfFuel.
Arguments Val {A} a.
Arguments Panic {A}.
Arguments OutOfFuel {A}.

Definition M (A : Type) : Type := State → Outcome A * State.

Definition ret {A} (a : A) : M A := λ st, (Val a, st).

Definition bind {A B} (c : M A) (k : A → M B) : M B :=
  λ st, match c st with
        | (Val a, st') => k a st'
        | (Panic, st') => (Panic, st')
        | (OutOfFuel, st') => (OutOfFuel, st')
        end.

Definition panic {A} : M A := λ st, (Panic, st).
Definition out_of_fuel {A} : M A := λ st, (OutOfFuel, st).

(** A partial pure step: [None] is a run-time panic. *)
Definition orPanic {A} (o : option A) : M A :=
  match o with
  | Some a => ret a
  | None => panic
  end.

Notation "'do' x <- c ; k" := (bind c (λ x, k))
  (at level 20, x name, c at level 100, k at level 200).
Notation "'do' ' p <- c ; k" := (bind c (λ x, match x with p => k end))
  (at level 20, p pattern, c at level 100, k at level 200).

(** ** Slices *)

(** [s[i]] *)
Definition index {A} (s : list A) (i : nat) : option A := s !! i.

(** [s[:hi]] *)
Definition slice_to {A} (s : list A) (hi : nat) : option (list A) :=
  if bool_decide (hi ≤ length s)%nat then Some (take hi s) else None.

(** [s[lo:]] *)
Definition slice_from {A} (s : list A) (lo : nat) : option (list A) :=
  if bool_decide (lo ≤ length s)%nat then Some (drop lo s) else None.

(** ** The plugin *)

Definition maxDisplayUserBullets : nat := 50.

Inductive error :=
| errMaxChannelMembers
| errors_New (msg : string).

#[global] Instance error_eq_dec : EqDecision error.
Proof. solve_decision. Defined.

Record configuration := mkConfiguration {
  MaxChannelMembers : Z
}.

Record Plugin := mkPlugin {
  getConfiguration : configuration;
  BotUserID : string
}.

Record CommandArgs := mkCommandArgs {
  args_UserId : string;
  args_ChannelId : string;
  args_Command : string
}.

(** What [ExecuteCommand] returns: an empty [CommandResponse] with no
    error, or no response with an [AppError] carrying the detail text. *)
Inductive CommandResult :=
| CommandResponse
| AppError (details : string).

Definition nl : string := String "010"%char "".

Section plugin.

Variable w : World.

Definition Local : time.Location := time.localLoc (localzone w).

(** [time.Now]: the next reading of the clock. *)
Definition Now (st : State) : time.Time * State :=
  (clock w (ticks st), mkState (S (ticks st)) (trace st ++ [EvNow])).

Definition GetUsersInChannel (channelID sortBy : string) (page perPage : nat)
  : M (list User + string) :=
  λ st, (Val (api_GetUsersInChannel w channelID sortBy page perPage),
         emit (EvGetUsersInChannel channelID sortBy page perPage) st).

Definition SendEphemeralPost (userID : string) (post : Post) : M unit :=
  λ st, (Val tt, emit (EvSendEphemeralPost userID post) st).

Definition location (user : User) : option time.Location :=
  let useAutomatic :=
    match strconv.ParseBool (map_get (Timezone user) "useAutomaticTimezone") with
    | Some b => b
    | None => false
    end in
  let tz :=
    if useAutomatic then map_get (Timezone user) "automaticTimezone"
    else map_get (Timezone user) "manualTimezone" in
  match time.LoadLocation (tzdata w) (localzone w) tz with
  | None => None
  | Some location => Some location
  end.

(** The loop of [window]: [i] is the index of the head of [users] in the
    slice, [start] and [end_] are the named results so far.  The result
    [ok] is only set after the loop. *)
Fixpoint window_loop (i : nat) (users : list User) (start end_ : time.Time)
    (st : State) : (time.Time * time.Time * bool) * State :=
  match users with
  | [] => ((start, end_, true), st)
  | user :: rest =>
      match location user with
      | None => window_loop (S i) rest start end_ st
      | Some loc =>
          let '(now, st) := Now st in
          let userEarliestStart := time.Date (time.civil_day now Local) 7 loc in
          let userLatestEnd := time.Date (time.civil_day now Local) 22 loc in
          let '(start, end_) :=
            if bool_decide (i = 0%nat) then (userEarliestStart, userLatestEnd)
            else (start, end_) in
          let start := if time.After userEarliestStart start then userEarliestStart else start in
          let end_ := if time.Before userLatestEnd end_ then userLatestEnd else end_ in
          if time.After start end_ || time.Equal start end_
          then ((start, end_, false), st)
          else window_loop (S i) rest start end_ st
      end
  end.

Definition window (users : list User) (st : State)
  : (time.Time * time.Time * bool) * State :=
  window_loop 0 users time.zero time.zero st.

(** The search loop of [arrangeUserFirst], with its [break]. *)
Fixpoint indexOfUser_loop (userID : string) (i : nat) (users : list User)
    (indexOfUser : nat) : nat :=
  match users with
  | [] => indexOfUser
  | user :: rest =>
      if bool_decide (Id user = userID) then i
      else indexOfUser_loop userID (S i) rest indexOfUser
  end.

Definition arrangeUserFirst (userID : string) (users : list User)
  : option (list User) :=
  let indexOfUser := indexOfUser_loop userID 0 users 0 in
  pivot ← index users indexOfUser;
  let sorted := [pivot] in
  before ← slice_to users indexOfUser;
  let sorted := (sorted ++ before)%list in
  after ← slice_from users (indexOfUser + 1);
  let sorted := (sorted ++ after)%list in
  Some sorted.

Definition verboseDisplay (start end_ : time.Time) (users : list User) : string :=
  foldl (λ message user,
    match location user with
    | None =>
        message +:+ nl +:+ "- " +:+ FirstName user +:+ " " +:+ LastName user +:+ ": ?"
    | Some loc =>
        message +:+ nl +:+ "- " +:+ GetDisplayName_full_name user +:+ ": "
          +:+ time.Format_3_04pm start loc +:+ " - "
          +:+ time.Format_3_04pm end_ loc +:+ " "
          +:+ time.Format_MST end_ loc
    end) "" users.

(** One iteration of the loop of [usersByTimezone]. *)
Definition usersByTimezone_step (umap : gmap string (list User)) (user : User)
  : gmap string (list User) :=
  let locStr := time.Location_String (location user) in
  if bool_decide (locStr = "") then umap
  else
    let umap := match umap !! locStr with
                | Some _ => umap
                | None => <[locStr := []]> umap
                end in
    <[locStr := (default [] (umap !! locStr) ++ [user])%list]> umap.

Definition usersByTimezone (users : list User) : gmap string (list User) :=
  foldl usersByTimezone_step ∅ users.

Definition othersMsg (userCount : nat) : string :=
  if bool_decide (1 < userCount)%nat then
    if bool_decide (userCount = 2%nat) then " and 1 other"
    else " and " +:+ pretty (userCount - 1)%nat +:+ " others"
  else "".

(** One iteration of the loop of [compactDisplay]; [Time.In] panics on a
    nil location. *)
Definition compactDisplay_step (start end_ : time.Time)
    (message : option string) (entry : string * list User) : option string :=
  message ← message;
  let users := entry.2 in
  first ← index users 0;
  loc ← location first;
  Some (message +:+ nl +:+ "- " +:+ GetDisplayName_full_name first
          +:+ othersMsg (length users) +:+ ": "
          +:+ time.Format_3_04pm start loc +:+ " - "
          +:+ time.Format_3_04pm end_ loc +:+ " "
          +:+ time.Format_MST end_ loc).

Definition compactDisplay (start end_ : time.Time) (users : list User)
  : option string :=
  let usersMap := usersByTimezone users in
  foldl (compactDisplay_step start end_) (Some "")
    (range_order w (map_to_list usersMap)).

Definition batchSize : nat := 100.

(** The loop of [allUsers]; [fuel] bounds the number of pages fetched. *)
Fixpoint allUsers_loop (fuel : nat) (channelID : string) (limit : Z)
    (page : nat) (allUsers : list User) : M (list User * option error) :=
  match fuel with
  | O => out_of_fuel
  | S fuel =>
      do r <- GetUsersInChannel channelID "username" page batchSize;
      match r with
      | inr err => ret ([], Some (errors_New err))
      | inl usersBatch =>
          let allUsers := (allUsers ++ filter (λ user, IsBot user = false) usersBatch)%list in
          if bool_decide (limit < Z.of_nat (length allUsers))
          then ret (allUsers, Some errMaxChannelMembers)
          else if bool_decide (length usersBatch < batchSize)%nat
          then ret (allUsers, None)
          else allUsers_loop fuel channelID limit (S page) allUsers
      end
  end.

Definition allUsers (fuel : nat) (channelID : string) (limit : Z)
  : M (list User * option error) :=
  allUsers_loop fuel channelID limit 0 [].

(** [err.Error()] *)
Definition error_text (e : error) : string :=
  match e with
  | errMaxChannelMembers => "max channel members"
  | errors_New msg => msg
  end.

(** [errors.Is(err, target)] for errors that wrap nothing. *)
Definition errors_Is (err target : error) : bool := bool_decide (err = target).

(** [err != nil && cond err] *)
Definition non_nil_and (err : option error) (cond : error → bool) : bool :=
  match err with
  | Some e => cond e
  | None => false
  end.

Definition ExecuteCommand (fuel : nat) (p : Plugin) (args : CommandArgs)
  : M CommandResult :=
  let configuration := getConfiguration p in
  let split := gostrings.Fields (args_Command args) in
  do command <- orPanic (index split 0);
  if bool_decide (command ≠ "/whentochat") then ret CommandResponse
  else
    do '(allUsers, err) <- allUsers fuel (args_ChannelId args) (MaxChannelMembers configuration);
    if non_nil_and err (λ e, negb (errors_Is e errMaxChannelMembers))
    then ret (AppError (from_option error_text "" err))
    else
      let post := mkPost (BotUserID p) (args_ChannelId args) in
      if non_nil_and err (λ e, errors_Is e errMaxChannelMembers) then
        do _ <- SendEphemeralPost (args_UserId args) (post "Too many channel members.");
        ret CommandResponse
      else
        do '(earliestStart, latestEnd, ok) <-
          (λ st, let '(r, st) := window allUsers st in (Val r, st));
        if negb ok then
          do _ <- SendEphemeralPost (args_UserId args)
                    (post "There is no window that suits everyone.");
          ret CommandResponse
        else
          do allUsers <- orPanic (arrangeUserFirst (args_UserId args) allUsers);
          do message <-
            (if bool_decide (length allUsers ≤ maxDisplayUserBullets)%nat
             then ret (verboseDisplay earliestStart latestEnd allUsers)
             else orPanic (compactDisplay earliestStart latestEnd allUsers));
          do _ <- SendEphemeralPost (args_UserId args)
                    (post ("It looks like the best times to chat are:" +:+ nl +:+ message));
          ret CommandResponse.

End plugin.

(** ** Vocabulary of the specification *)

(** A member contributes to the window when its zone resolves. *)
Definition resolvable (w : World) (u : User) : Prop := is_Some (location w u).

#[global] Instance resolvable_dec w u : Decision (resolvable w u).
Proof. unfold resolvable. apply _. Defined.

(** The members of [users] that contribute, in order. *)
Definition contributing (w : World) (users : list User) : list User :=
  filter (resolvable w) users.

(** The 07:00 and 22:00 instants that [window] computes for a member in
    zone [l] from the [k]-th reading of the clock: the date is the one the
    reading has on the server. *)
Definition dailyStart (w : World) (k : nat) (l : time.Location) : time.Time :=
  time.Date (time.civil_day (clock w k) (Local w)) 7 l.

Definition dailyEnd (w : World) (k : nat) (l : time.Location) : time.Time :=
  time.Date (time.civil_day (clock w k) (Local w)) 22 l.

(** The reading of the specification: at the instant [now], the instant
    [t] lies in [07:00,22:00) of the date that the zone [l] has at [now]. *)
Definition within_own_day (now t : time.Time) (l : time.Location) : Prop :=
  time.civil_day t l = time.civil_day now l ∧
  7 * 3600 ≤ time.second_of_day t l < 22 * 3600.

(** The shared window, when [window] reports one, lies in every
    contributing member's own day. *)
Definition shared_window_in_own_days (w : World) (users : list User) (st : State) : Prop :=
  ∀ s e st', window w users st = ((s, e, true), st') →
    ∀ u l, u ∈ users → location w u = Some l →
      within_own_day (clock w (ticks st)) s l ∧ within_own_day (clock w (ticks st)) e l.

(** The zone name the specification selects for a member: the automatic
    name if the flag parses as true, the manual name otherwise, also when
    the flag is missing or does not parse. *)
Definition spec_zone_name (u : User) : string :=
  match Timezone u !! "useAutomaticTimezone" with
  | Some flag =>
      match strconv.ParseBool flag with
      | Some true => default "" (Timezone u !! "automaticTimezone")
      | Some false | None => default "" (Timezone u !! "manualTimezone")
      end
  | None => default "" (Timezone u !! "manualTimezone")
  end.

(** A name the zone database knows. *)
Definition recognized (w : World) (nm : string) : Prop :=
  nm = "UTC" ∨ nm = "Local" ∨ is_Some (tzdata w nm).

(** The non-bot members of the pages [page], ..., [page + n - 1] of a
    channel, in order: the running total of [allUsers]. *)
Definition page_members (w : World) (channelID : string) (page : nat) : list User :=
  match api_GetUsersInChannel w channelID "username" page batchSize with
  | inl usersBatch => filter (λ user, IsBot user = false) usersBatch
  | inr _ => []
  end.

Definition members_between (w : World) (channelID : string) (page n : nat) : list User :=
  concat (map (page_members w channelID) (seq page n)).

Definition fetches (channelID : string) (page n : nat) : list Event :=
  map (λ j, EvGetUsersInChannel channelID "username" j batchSize) (seq page n).

(** ** A sample world *)

Definition sample_zoneinfo : gmap string (string * Z) :=
  list_to_map
    [ ("Asia/Tokyo", ("JST", 32400));
      ("America/New_York", ("EST", -18000));
      ("Pacific/Auckland", ("NZST", 43200));
      ("America/Sao_Paulo", ("-03", -10800)) ].

Definition manual (zone : string) : gmap string string :=
  {[ "useAutomaticTimezone" := "false"; "manualTimezone" := zone ]}.

Definition alice : User := mkUser "u-alice" "alice" "Alice" "Abe" false (manual "Asia/Tokyo").
Definition bob : User := mkUser "u-bob" "bob" "Bob" "Brown" false (manual "America/New_York").
Definition carol : User := mkUser "u-carol" "carol" "Carol" "Cruz" false (manual "Mars/Olympus").
Definition dan : User := mkUser "u-dan" "dan" "Dan" "" false (manual "").
Definition erin : User := mkUser "u-erin" "erin" "Erin" "Eru" false (manual "Pacific/Auckland").
Definition fabio : User := mkUser "u-fabio" "fabio" "Fabio" "Faria" false (manual "America/Sao_Paulo").
Definition ursula : User := mkUser "u-ursula" "ursula" "Ursula" "Ueda" false (manual "UTC").
Definition robot : User := mkUser "u-bot" "whentochat" "" "" true ∅.

Definition tokyo : time.Location := time.mkLocation "Asia/Tokyo" "JST" 32400.

(** Day 20000 is 2024-10-04. *)
Definition noon : time.Time := 20000 * 86400 + 12 * 3600.
Definition late_evening : time.Time := 20000 * 86400 + 23 * 3600 + 1800.

(** A server on UTC whose clock stands at [now]; the members of the
    channel come in the given pages. *)
Definition sample_world (now : time.Time) (channel : list (list User)) : World :=
  mkWorld (λ nm, sample_zoneinfo !! nm) ("UTC", 0) (λ _, now)
          (λ _ _ page _, inl (default [] (channel !! page)))
          (λ entries, entries).

Definition at_noon : World := sample_world noon [[alice; robot; bob; carol; dan]].
Definition at_night : World := sample_world late_evening [[alice]].

(** Fifty members in Tokyo and one whose zone name is unknown. *)
Definition tokyo_member (n : nat) : User :=
  mkUser ("u-" +:+ pretty n) ("member" +:+ pretty n) "Member" (pretty n) false
         (manual "Asia/Tokyo").

Definition big_channel : list User := (map tokyo_member (seq 0 50) ++ [carol])%list.
Definition big : World := sample_world noon [big_channel].

Definition st0 : State := mkState 0 [].

(** A channel of 104 people, in pages of 100, 3 and 1. *)
Definition crowded : World :=
  sample_world noon [map tokyo_member (seq 0 100); [alice; bob; carol]; [dan]].

(** A channel of bots, a channel of two people fifteen hours apart, and a
    host that fails on the second page. *)
Definition bots_only : World := sample_world noon [[robot; robot]].
Definition apart : World := sample_world noon [[erin; fabio]].
Definition failing : World :=
  mkWorld (λ nm, sample_zoneinfo !! nm) ("UTC", 0) (λ _, noon)
          (λ _ _ page _, if bool_decide (page = 0%nat)
                         then inl (map tokyo_member (seq 0 100))
                         else inr "connection refused")
          (λ entries, entries).

Definition sample_plugin (limit : Z) : Plugin := mkPlugin (mkConfiguration limit) "bot-id".
Definition whentochat_by (userID : string) : CommandArgs :=
  mkCommandArgs userID "town-square" "/whentochat".

(** ** Earlier revisions of the file *)

(** [window] as first written: the boolean result says that there is
    no shared window.  It is set where the loop returns from inside and
    keeps its zero value at the end of the loop. *)
Fixpoint window_first_revision_loop (w : World) (i : nat) (users : list User)
    (start end_ : time.Time) (st : State) : (time.Time * time.Time * bool) * State :=
  match users with
  | [] => ((start, end_, false), st)
  | user :: rest =>
      match location w user with
      | None => window_first_revision_loop w (S i) rest start end_ st
      | Some location =>
          let '(now, st) := Now w st in
          let userEarliestStart := time.Date (time.civil_day now (Local w)) 7 location in
          let userLatestEnd := time.Date (time.civil_day now (Local w)) 22 location in
          let '(start, end_) :=
            if bool_decide (i = 0%nat) then (userEarliestStart, userLatestEnd)
            else (start, end_) in
          let start := if time.After userEarliestStart start then userEarliestStart else start in
          let end_ := if time.Before userLatestEnd end_ then userLatestEnd else end_ in
          if time.After start end_ || time.Equal start end_
          then ((start, end_, true), st)
          else window_first_revision_loop w (S i) rest start end_ st
      end
  end.

Definition window_first_revision (w : World) (users : list User) (st : State)
  : (time.Time * time.Time * bool) * State :=
  window_first_revision_loop w 0 users time.zero time.zero st.

(** [allUsers] before the limit was added: the second component is the
    host's error, if any. *)
Fixpoint allUsers_unlimited_loop (w : World) (fuel : nat) (channelID : string)
    (page : nat) (allUsers : list User) : M (list User * option string) :=
  match fuel with
  | O => out_of_fuel
  | S fuel =>
      do r <- GetUsersInChannel w channelID "username" page batchSize;
      match r with
      | inr err => ret ([], Some err)
      | inl usersBatch =>
          let allUsers := (allUsers ++ filter (λ user, IsBot user = false) usersBatch)%list in
          if bool_decide (length usersBatch < batchSize)%nat
          then ret (allUsers, None)
          else allUsers_unlimited_loop w fuel channelID (S page) allUsers
      end
  end.

Definition allUsers_unlimited (w : World) (fuel : nat) (channelID : string)
  : M (list User * option string) :=
  allUsers_unlimited_loop w fuel channelID 0 [].

(** What [ExecuteCommand] returned before the limit was added: an empty
    response, or the error of the host as the host made it. *)
Inductive EarlierResult :=
| EarlierResponse
| HostError (text : string).

(** [ExecuteCommand] before the limit and the compact display were added:
    the listing is built in the function itself. *)
Definition ExecuteCommand_unlimited (w : World) (fuel : nat) (p : Plugin)
    (args : CommandArgs) : M EarlierResult :=
  let split := gostrings.Fields (args_Command args) in
  do command <- orPanic (index split 0);
  if bool_decide (command ≠ "/whentochat") then ret EarlierResponse
  else
    do '(allUsers, err) <- allUsers_unlimited w fuel (args_ChannelId args);
    match err with
    | Some text => ret (HostError text)
    | None =>
        do '(earliestStart, latestEnd, ok) <-
          (λ st, let '(r, st) := window w allUsers st in (Val r, st));
        let post := mkPost (BotUserID p) (args_ChannelId args) in
        if negb ok then
          do _ <- SendEphemeralPost (args_UserId args)
                    (post "There is no window that suits everyone.");
          ret EarlierResponse
        else
          let message := "It looks like the best times to chat are:" +:+ nl in
          do allUsers <- orPanic (arrangeUserFirst (args_UserId args) allUsers);
          let message :=
            foldl (λ message user,
              match location w user with
              | None =>
                  message +:+ nl +:+ "- " +:+ FirstName user +:+ " " +:+ LastName user +:+ ": ?"
              | Some location =>
                  message +:+ nl +:+ "- " +:+ GetDisplayName_full_name user +:+ ": "
                    +:+ time.Format_3_04pm earliestStart location +:+ " - "
                    +:+ time.Format_3_04pm latestEnd location +:+ " "
                    +:+ time.Format_MST latestEnd location
              end) message allUsers in
          do _ <- SendEphemeralPost (args_UserId args) (post message);
          ret EarlierResponse
    end.

(** ** More vocabulary *)

(** An outcome without its value. *)
Definition ending {A} (o : Outcome A) : Outcome unit :=
  match o with
  | Val _ => Val tt
  | Panic => Panic
  | OutOfFuel => OutOfFuel
  end.


(** The key under which [usersByTimezone] files a member. *)
Definition zone_key (w : World) (u : User) : string :=
  time.Location_String (location w u).

(** The zones of the members that resolve. *)
Definition zones (w : World) (users : list User) : list time.Location :=
  omap (location w) users.

(** The ephemeral posts among some events. *)
Definition posts_of (events : list Event) : list (string * Post) :=
  omap (λ ev, match ev with
              | EvSendEphemeralPost userID post => Some (userID, post)
              | _ => None
              end) events.

(** A command text with nothing but white space. *)
Fixpoint blank (s : string) : bool :=
  match s with
  | EmptyString => true
  | String c rest => gostrings.asciiSpace c && blank rest
  end.

(** ** Facts about [window] *)

Section window_facts.

Variable w : World.

Lemma window_loop_none_resolvable users :
  Forall (λ u, location w u = None) users →
  ∀ i start end_ st,
    window_loop w i users start end_ st = ((start, end_, true), st).
Proof.
  induction 1 as [|u rest Hu _ IH]; intros i start end_ st; simpl.
  - reflexivity.
  - rewrite Hu. apply IH.
Qed.

(** A return from inside the loop is final: what follows is not read. *)
Lemma window_loop_false_app pre post :
  ∀ i start end_ st s e st',
    window_loop w i pre start end_ st = ((s, e, false), st') →
    window_loop w i (pre ++ post) start end_ st = ((s, e, false), st').
Proof.
  induction pre as [|u rest IH]; intros i start end_ st s e st'; simpl.
  - intros [=].
  - destruct (location w u) as [loc|]; [|apply IH].
    destruct (bool_decide (i = 0%nat)); simpl;
      destruct (_ || _); first [done | apply IH].
Qed.

(** The invariant of the loop, read off a run that reaches its end. *)
Lemma window_loop_true users :
  ∀ i start end_ st s e st',
    window_loop w i users start end_ st = ((s, e, true), st') →
    (i ≠ 0%nat → start ≤ s ∧ e ≤ end_) ∧
    ((s = start ∧ e = end_ ∧ Forall (λ u, location w u = None) users) ∨ s < e) ∧
    (∀ j u l, users !! j = Some u → location w u = Some l →
       let k := (ticks st + length (contributing w (take j users)))%nat in
       dailyStart w k l ≤ s ∧ e ≤ dailyEnd w k l).
Proof.
  induction users as [|u rest IH]; intros i start end_ st s e st'; simpl.
  - intros [= <- <- <-]. split_and!; [lia | left; by split_and! | done].
  - destruct (location w u) as [loc|] eqn:Hloc.
    + set (ues := time.Date _ 7 loc). set (ule := time.Date _ 22 loc).
      destruct (bool_decide (i = 0%nat)) eqn:Hi; simpl;
        unfold time.After, time.Before, time.Equal;
        repeat case_bool_decide; simpl; try done;
        intros Hrun; apply IH in Hrun as (Hmono & Hstrict & Hmem);
        specialize (Hmono ltac:(lia));
        (split_and!;
         [ intros; lia
         | right; destruct Hstrict as [(-> & -> & _)|]; lia
         | intros [|j] v l Hv Hl; simpl in *;
           [ injection Hv as <-; rewrite Hloc in Hl; injection Hl as <-;
             unfold contributing; simpl; rewrite Nat.add_0_r;
             unfold dailyStart, dailyEnd; fold ues ule; lia
           | specialize (Hmem j v l Hv Hl); simpl in Hmem;
             unfold contributing in *; rewrite filter_cons_True by (unfold resolvable; by rewrite Hloc);
             simpl; rewrite <- Nat.add_succ_comm; exact Hmem ] ]).
    + intros Hrun. apply IH in Hrun as (Hmono & Hstrict & Hmem).
      split_and!.
      * intros _. apply Hmono. lia.
      * destruct Hstrict as [(-> & -> & Hall)|]; [left; split_and!; auto | by right].
      * intros [|j] v l Hv Hl; simpl in *.
        -- injection Hv as <-. congruence.
        -- specialize (Hmem j v l Hv Hl). simpl in Hmem.
           unfold contributing in *.
           rewrite filter_cons_False; [exact Hmem|].
           unfold resolvable. rewrite Hloc. by intros [? ?].
Qed.

End window_facts.

(** ** Calendar arithmetic *)

Lemma day_and_second (D x r : Z) :
  x = D * 86400 + r → 0 ≤ r < 86400 →
  x `div` 86400 = D ∧ x `mod` 86400 = r.
Proof.
  intros -> Hr. split.
  - symmetry. apply (Z.div_unique _ _ D r); lia.
  - symmetry. apply (Z.mod_unique _ _ D r); lia.
Qed.

(** An instant between 07:00 and 22:00 of day [D] in zone [l] is on day
    [D] there, and its time of day is in that range. *)
Lemma between_hours (D : Z) (l : time.Location) (t : time.Time) :
  time.Date D 7 l ≤ t ≤ time.Date D 22 l →
  time.civil_day t l = D ∧
  time.second_of_day t l = t - time.Date D 0 l ∧
  7 * 3600 ≤ time.second_of_day t l ≤ 22 * 3600.
Proof.
  unfold time.Date, time.civil_day, time.second_of_day, time.wall. intros Ht.
  destruct (day_and_second D (t + time.offset l) (t + time.offset l - D * 86400))
    as [-> ->]; lia.
Qed.

(** ** The claims about [window] *)

(** C1 (counterexample).  The server is on UTC and it is 23:30 there;
    Alice, in Tokyo, is already on the next day.  [window] reports a shared
    window whose start is 07:00 of the server's date in Tokyo, which is not
    on Alice's current date; and its end is 22:00 sharp, which the
    half-open interval excludes. *)
Lemma window_not_in_own_day :
  ¬ shared_window_in_own_days at_night [alice] st0
  ∧ ∃ s e st', window at_night [alice] st0 = ((s, e, true), st')
      ∧ location at_night alice = Some tokyo
      ∧ time.civil_day s tokyo = 20000
      ∧ time.civil_day (clock at_night 0) tokyo = 20001
      ∧ time.second_of_day e tokyo = 22 * 3600.
Proof.
  split.
  - intros Hclaim.
    destruct (Hclaim _ _ _ eq_refl alice tokyo) as [[Hday _] _].
    + apply list_elem_of_singleton. reflexivity.
    + reflexivity.
    + vm_compute in Hday. discriminate.
  - eexists _, _, _. split; [reflexivity|]. by vm_compute.
Qed.

(** C1 (amended).  When [window] reports a shared window, every member whose
    zone resolves has it inside 07:00 to 22:00 of one calendar date in that
    member's zone: the date that the clock reading taken in the member's
    iteration has on the server.  The start is in [07:00,22:00), the end
    in (07:00,22:00], and the start precedes the end. *)
Theorem window_within_daily_windows (w : World) (users : list User) (st st' : State)
    (s e : time.Time) (j : nat) (u : User) (l : time.Location) :
  window w users st = ((s, e, true), st') →
  users !! j = Some u →
  location w u = Some l →
  let k := (ticks st + length (contributing w (take j users)))%nat in
  let D := time.civil_day (clock w k) (Local w) in
  s < e ∧
  (time.civil_day s l = D ∧ 7 * 3600 ≤ time.second_of_day s l < 22 * 3600) ∧
  (time.civil_day e l = D ∧ 7 * 3600 < time.second_of_day e l ≤ 22 * 3600).
Proof.
  intros Hrun Hj Hl k D.
  apply window_loop_true in Hrun as (_ & Hstrict & Hmem).
  specialize (Hmem j u l Hj Hl). simpl in Hmem. fold k in Hmem.
  unfold dailyStart, dailyEnd in Hmem. fold D in Hmem.
  assert (Hlt : s < e).
  { destruct Hstrict as [(_ & _ & Hall)|]; [|done].
    apply list_elem_of_lookup_2 in Hj.
    rewrite Forall_forall in Hall. specialize (Hall u Hj). congruence. }
  assert (Hdur : time.Date D 22 l - time.Date D 7 l = 15 * 3600)
    by (unfold time.Date; lia).
  destruct (between_hours D l s) as (Hds & Hss & ?); [lia|].
  destruct (between_hours D l e) as (Hde & Hse & ?); [lia|].
  split_and!; try done; lia.
Qed.

Lemma window_within_daily_windows_witness :
  1728043200 < 1728046800 ∧
  (time.civil_day 1728043200 tokyo = 20000
   ∧ 7 * 3600 ≤ time.second_of_day 1728043200 tokyo < 22 * 3600) ∧
  (time.civil_day 1728046800 tokyo = 20000
   ∧ 7 * 3600 < time.second_of_day 1728046800 tokyo ≤ 22 * 3600).
Proof.
  apply (window_within_daily_windows at_noon [alice; bob] st0
           (mkState 2 [EvNow; EvNow]) 1728043200 1728046800 0 alice tokyo);
    reflexivity.
Defined.

(** When the first member's zone does not resolve and a later member's
    does, the bounds are never initialised: the zero instants stay in, and
    the loop returns from inside at the first member that resolves. *)
Lemma window_first_unresolved (w : World) (u : User) (rest : list User) (st : State) :
  location w u = None →
  Exists (resolvable w) rest →
  (window w (u :: rest) st).1.2 = false.
Proof.
  intros Hu Hex. unfold window. simpl. rewrite Hu.
  destruct (window_loop w 1 rest time.zero time.zero st) as [[[s e] ok] st'] eqn:Hrun.
  destruct ok; [|reflexivity]. exfalso.
  apply window_loop_true in Hrun as (Hmono & Hstrict & _).
  specialize (Hmono ltac:(lia)).
  destruct Hstrict as [(_ & _ & Hall)|]; [|lia].
  apply Exists_exists in Hex as (v & Hv & [l Hl]).
  rewrite Forall_forall in Hall. specialize (Hall v Hv). congruence.
Qed.

(** C2 (the code at the failing input).  Carol's zone is unknown, Alice's
    is Tokyo.  Alone, Alice gets her 07:00 to 22:00; behind Carol, the end
    bound stays the zero instant and no window is reported. *)
Theorem window_unknown_first :
  location at_noon carol = None ∧
  window at_noon [alice] st0
    = ((dailyStart at_noon 0 tokyo, dailyEnd at_noon 0 tokyo, true), mkState 1 [EvNow]) ∧
  window at_noon [carol; alice] st0
    = ((dailyStart at_noon 0 tokyo, time.zero, false), mkState 1 [EvNow]).
Proof. split_and!; reflexivity. Qed.

(** C3 (counterexample).  With nobody, or with only a member whose zone is
    unknown, [window] reports an overlap. *)
Lemma window_nobody_resolves_ok :
  (window at_noon [] st0).1.2 = true ∧
  Forall (λ u, location at_noon u = None) [carol] ∧
  (window at_noon [carol] st0).1.2 = true.
Proof. split_and!; [reflexivity | by repeat constructor | reflexivity]. Qed.

(** C3 (amended).  When no member's zone resolves, the loop body never
    runs past the nil check: [window] reads no clock and returns the zero
    instants with [ok = true]. *)
Theorem window_none_resolvable (w : World) (users : list User) (st : State) :
  Forall (λ u, location w u = None) users →
  window w users st = ((time.zero, time.zero, true), st).
Proof. intros Hall. by apply window_loop_none_resolvable. Qed.

Lemma window_none_resolvable_witness :
  window at_noon [carol; carol] st0 = ((time.zero, time.zero, true), st0).
Proof.
  apply (window_none_resolvable at_noon [carol; carol] st0).
  repeat constructor.
Defined.

(** C4.  Take the running bounds after any part [pre] of the members in
    which somebody's zone resolved.  If the start equals or follows the
    end there, [window] has returned from inside the loop: whatever
    members follow, the result is those bounds with [ok = false]. *)
Theorem window_strict (w : World) (pre post : list User) (st st' : State)
    (s e : time.Time) (ok : bool) :
  window w pre st = ((s, e, ok), st') →
  Exists (resolvable w) pre →
  e ≤ s →
  window w (pre ++ post) st = ((s, e, false), st').
Proof.
  intros Hrun Hex Hle. destruct ok.
  - exfalso. apply window_loop_true in Hrun as (_ & Hstrict & _).
    destruct Hstrict as [(_ & _ & Hall)|]; [|lia].
    apply Exists_exists in Hex as (v & Hv & [l Hl]).
    rewrite Forall_forall in Hall. specialize (Hall v Hv). congruence.
  - by apply window_loop_false_app.
Qed.

(** Auckland's 22:00 is Sao Paulo's 07:00: the bounds meet, and Alice,
    who would fit, is not looked at. *)
Lemma window_strict_witness :
  window at_noon ([erin; fabio] ++ [alice]) st0
  = ((1728036000, 1728036000, false), mkState 2 [EvNow; EvNow]).
Proof.
  apply (window_strict at_noon [erin; fabio] [alice] st0 _ 1728036000 1728036000 false).
  - reflexivity.
  - apply Exists_cons_hd. by eexists.
  - lia.
Defined.

(** ** The claims about [arrangeUserFirst] *)

(** The search stops at the first member with the wanted id. *)
Lemma indexOfUser_loop_found (userID : string) (pre post : list User) (inv : User) :
  Forall (λ v, Id v ≠ userID) pre →
  Id inv = userID →
  ∀ i d, indexOfUser_loop userID i (pre ++ inv :: post) d = (i + length pre)%nat.
Proof.
  intros Hpre Hinv. induction Hpre as [|v pre Hv _ IH]; intros i d; simpl.
  - rewrite bool_decide_eq_true_2 by done. lia.
  - rewrite bool_decide_eq_false_2 by done. rewrite IH. lia.
Qed.

(** Without such a member the index keeps its initial value. *)
Lemma indexOfUser_loop_absent (userID : string) (users : list User) :
  Forall (λ v, Id v ≠ userID) users →
  ∀ i d, indexOfUser_loop userID i users d = d.
Proof.
  induction 1 as [|v rest Hv _ IH]; intros i d; simpl; [done|].
  rewrite bool_decide_eq_false_2 by done. apply IH.
Qed.

(** The index found is the initial value or a position of the slice. *)
Lemma indexOfUser_loop_bound (userID : string) (users : list User) :
  ∀ i d, indexOfUser_loop userID i users d = d
         ∨ (i ≤ indexOfUser_loop userID i users d < i + length users)%nat.
Proof.
  induction users as [|v rest IH]; intros i d; simpl; [by left|].
  case_bool_decide; [right; lia|].
  destruct (IH (S i) d) as [->|?]; [by left | right; lia].
Qed.

(** Splitting a list at the first member with a given id. *)
Lemma first_with_id (userID : string) (users : list User) :
  (∃ u, u ∈ users ∧ Id u = userID) →
  ∃ pre inv post,
    users = (pre ++ inv :: post)%list ∧ Id inv = userID ∧ Forall (λ v, Id v ≠ userID) pre.
Proof.
  induction users as [|v rest IH]; intros (u & Hu & Hid).
  - by apply elem_of_nil in Hu.
  - destruct (decide (Id v = userID)) as [Hv|Hv].
    + by exists [], v, rest.
    + apply elem_of_cons in Hu as [->|Hu]; [done|].
      destruct IH as (pre & inv & post & -> & ? & ?); [by exists u|].
      exists (v :: pre), inv, post. split_and!; [done | done | by constructor].
Qed.

(** What [arrangeUserFirst] does with the pivot at a position of the slice. *)
Lemma arrange_at (userID : string) (pre post : list User) (pivot : User) :
  indexOfUser_loop userID 0 (pre ++ pivot :: post) 0 = length pre →
  arrangeUserFirst userID (pre ++ pivot :: post) = Some (pivot :: pre ++ post)%list.
Proof.
  intros Hidx. unfold arrangeUserFirst, index, slice_to, slice_from. rewrite Hidx.
  rewrite list_lookup_middle by done. simpl.
  rewrite bool_decide_eq_true_2 by (rewrite length_app; simpl; lia). simpl.
  rewrite bool_decide_eq_true_2 by (rewrite length_app; simpl; lia). simpl.
  rewrite take_app_length.
  replace (length pre + 1)%nat with (length (pre ++ [pivot])) by (rewrite length_app; simpl; lia).
  rewrite (cons_middle pivot pre post), app_assoc, drop_app_length.
  reflexivity.
Qed.

(** C5.  When the invoker is a member, [arrangeUserFirst] returns the
    invoker followed by the members before and the members after the
    invoker's first occurrence, each part in its order; the result is a
    permutation of the members. *)
Theorem arrangeUserFirst_invoker_first (userID : string) (users : list User) :
  (∃ u, u ∈ users ∧ Id u = userID) →
  ∃ pre inv post,
    users = (pre ++ inv :: post)%list ∧
    Id inv = userID ∧
    Forall (λ v, Id v ≠ userID) pre ∧
    arrangeUserFirst userID users = Some (inv :: pre ++ post)%list ∧
    (inv :: pre ++ post)%list ≡ₚ users.
Proof.
  intros Hin. destruct (first_with_id userID users Hin) as (pre & inv & post & -> & Hid & Hpre).
  exists pre, inv, post. split_and!; try done.
  - apply arrange_at. by rewrite indexOfUser_loop_found.
  - apply Permutation_middle.
Qed.

Lemma arrangeUserFirst_invoker_first_witness :
  ∃ pre inv post,
    [alice; bob; carol; bob] = (pre ++ inv :: post)%list ∧
    Id inv = "u-bob" ∧
    Forall (λ v, Id v ≠ "u-bob") pre ∧
    arrangeUserFirst "u-bob" [alice; bob; carol; bob] = Some (inv :: pre ++ post)%list ∧
    (inv :: pre ++ post)%list ≡ₚ [alice; bob; carol; bob].
Proof.
  apply (arrangeUserFirst_invoker_first "u-bob" [alice; bob; carol; bob]).
  exists bob. split; [|reflexivity].
  apply list_elem_of_further, list_elem_of_here.
Defined.

(** C10.  On the empty slice the first access, [users[indexOfUser]], is out
    of range.  On a non-empty slice the three accesses are in range and the
    result has the length of the argument; when no member has the
    invoker's id the pivot is index 0 and the result is the argument. *)
Theorem arrangeUserFirst_total_on_nonempty (userID : string) (users : list User) :
  users ≠ [] →
  let indexOfUser := indexOfUser_loop userID 0 users 0 in
  index ([] : list User) (indexOfUser_loop userID 0 [] 0) = None ∧
  arrangeUserFirst userID [] = None ∧
  is_Some (index users indexOfUser) ∧
  is_Some (slice_to users indexOfUser) ∧
  is_Some (slice_from users (indexOfUser + 1)) ∧
  ∃ sorted,
    arrangeUserFirst userID users = Some sorted ∧
    length sorted = length users ∧
    (Forall (λ v, Id v ≠ userID) users → indexOfUser = 0%nat ∧ sorted = users).
Proof.
  intros Hne indexOfUser.
  assert (Hlt : (indexOfUser < length users)%nat).
  { destruct users as [|v rest]; [done|]. subst indexOfUser.
    destruct (indexOfUser_loop_bound userID (v :: rest) 0 0) as [->|?]; simpl in *; lia. }
  destruct (lookup_lt_is_Some_2 users indexOfUser Hlt) as [pivot Hpivot].
  split_and!.
  - reflexivity.
  - reflexivity.
  - by exists pivot.
  - unfold slice_to. rewrite bool_decide_eq_true_2 by lia. by eexists.
  - unfold slice_from. rewrite bool_decide_eq_true_2 by lia. by eexists.
  - unfold arrangeUserFirst, index, slice_to, slice_from. fold indexOfUser.
    rewrite Hpivot. simpl.
    rewrite !bool_decide_eq_true_2 by lia. simpl.
    eexists. split; [reflexivity|]. split.
    + simpl. rewrite length_app, length_take, length_drop. lia.
    + intros Habsent.
      assert (Hzero : indexOfUser = 0%nat) by (by apply indexOfUser_loop_absent).
      split; [done|]. rewrite Hzero in *.
      destruct users as [|v rest]; [done|]. simpl in *.
      injection Hpivot as ->. by rewrite drop_0.
Qed.

Lemma arrangeUserFirst_total_on_nonempty_witness :
  arrangeUserFirst "u-dan" [] = None ∧
  ∃ sorted,
    arrangeUserFirst "u-dan" [alice; bob] = Some sorted ∧
    length sorted = 2%nat ∧ sorted = [alice; bob].
Proof.
  destruct (arrangeUserFirst_total_on_nonempty "u-dan" [alice; bob])
    as (_ & Hnil & _ & _ & _ & sorted & Hrun & Hlen & Habsent).
  - discriminate.
  - split; [exact Hnil|]. exists sorted. split_and!; [exact Hrun | exact Hlen |].
    apply Habsent. repeat constructor; discriminate.
Defined.

(** ** The claims about [location] *)

(** [location] loads the zone of the name the specification selects. *)
Lemma location_spec_zone_name (w : World) (u : User) :
  location w u = time.LoadLocation (tzdata w) (localzone w) (spec_zone_name u).
Proof.
  unfold location, spec_zone_name, map_get.
  destruct (Timezone u !! "useAutomaticTimezone") as [flag|]; simpl.
  - destruct (strconv.ParseBool flag) as [[|]|];
      by destruct (time.LoadLocation _ _ _).
  - by destruct (time.LoadLocation _ _ _).
Qed.

(** C9 (counterexample).  Dan's chosen zone name is empty; [LoadLocation]
    answers UTC for the empty name, so Dan resolves, to UTC. *)
Lemma location_empty_name_resolves :
  spec_zone_name dan = "" ∧ location at_noon dan = Some time.utcLoc ∧ location at_noon dan ≠ None.
Proof. split_and!; [reflexivity | reflexivity | discriminate]. Qed.

(** C9 (amended).  [location] is a total function of the member: it
    returns nil or a zone and never panics.  For a chosen name the zone
    database does not know it returns nil, except for the empty name,
    for which it returns UTC. *)
Theorem location_unknown (w : World) (u : User) :
  ¬ recognized w (spec_zone_name u) →
  location w u = if bool_decide (spec_zone_name u = "") then time.UTC else None.
Proof.
  intros Hunknown. rewrite location_spec_zone_name.
  unfold recognized in Hunknown. unfold time.LoadLocation.
  destruct (decide (spec_zone_name u = "")) as [Hempty|Hempty].
  - rewrite (bool_decide_eq_true_2 (_ ∨ _)) by (by left).
    by rewrite (bool_decide_eq_true_2 (spec_zone_name u = "")).
  - rewrite (bool_decide_eq_false_2 (_ ∨ _)) by tauto.
    rewrite (bool_decide_eq_false_2 (_ = "Local")) by tauto.
    rewrite (bool_decide_eq_false_2 (_ = "")) by done.
    destruct (_ || _); [done|].
    destruct (tzdata w (spec_zone_name u)) as [[ab off]|] eqn:Hdb; [|done].
    exfalso. apply Hunknown. right. right. by eexists.
Qed.

Lemma location_unknown_witness : location at_noon carol = None.
Proof.
  apply (location_unknown at_noon carol).
  intros [H|[H|[x H]]]; discriminate.
Defined.

(** ** The claims about the compact display *)

(** The key under which [usersByTimezone] files a member is never empty:
    a nil location prints as UTC, and [LoadLocation] names every zone it
    returns.  The test [locStr == ""] never succeeds. *)
Lemma location_String_nonempty (w : World) (u : User) :
  time.Location_String (location w u) ≠ "".
Proof.
  rewrite location_spec_zone_name. unfold time.LoadLocation, time.Location_String.
  repeat case_bool_decide; simpl; try discriminate.
  destruct (_ || _); simpl; [discriminate|].
  destruct (tzdata w _) as [[ab off]|]; simpl; [tauto | discriminate].
Qed.

Lemma usersByTimezone_step_files (w : World) (umap : gmap string (list User)) (u : User) :
  usersByTimezone_step w umap u
  = <[ time.Location_String (location w u) :=
         (default [] (umap !! time.Location_String (location w u)) ++ [u])%list ]> umap.
Proof.
  unfold usersByTimezone_step.
  rewrite bool_decide_eq_false_2 by apply location_String_nonempty.
  destruct (umap !! _) eqn:Hk; [by rewrite Hk|].
  rewrite lookup_insert_eq. simpl. by rewrite insert_insert_eq.
Qed.

(** The group filed under a key: the members whose location prints as
    that key, in their order. *)
Lemma usersByTimezone_lookup (w : World) (users : list User) (key : string) :
  usersByTimezone w users !! key
  = match filter (λ u, time.Location_String (location w u) = key) users with
    | [] => None
    | group => Some group
    end.
Proof.
  unfold usersByTimezone.
  induction users as [|u users IH] using rev_ind; [done|].
  rewrite foldl_app. simpl. rewrite usersByTimezone_step_files, filter_app.
  destruct (decide (time.Location_String (location w u) = key)) as [<-|Hne].
  - rewrite lookup_insert_eq, IH, filter_cons_True by done. rewrite filter_nil.
    by destruct (filter _ users).
  - rewrite lookup_insert_ne by done.
    rewrite IH, filter_cons_False by done. by rewrite filter_nil, app_nil_r.
Qed.

(** A member whose zone is unknown is filed under "UTC". *)
Lemma usersByTimezone_unknown_under_UTC (w : World) (users : list User) (u : User) :
  u ∈ users → location w u = None →
  ∃ group, usersByTimezone w users !! "UTC" = Some group ∧ u ∈ group.
Proof.
  intros Hu Hloc. rewrite usersByTimezone_lookup.
  assert (Hin : u ∈ filter (λ v, time.Location_String (location w v) = "UTC") users).
  { apply list_elem_of_filter. split; [by rewrite Hloc | done]. }
  destruct (filter _ users) as [|v group]; [by apply elem_of_nil in Hin|].
  by eexists.
Qed.

(** C6 (the code at failing inputs).  Carol's zone is unknown.  Her key in
    the grouping is "UTC", not the empty string, so she is filed with
    Ursula, who is on UTC, and the line of that group counts her; and where
    she is the first of her group, as in a channel of fifty people in
    Tokyo and her, [Time.In] is called with a nil location and panics. *)
Theorem compactDisplay_unknown_zone :
  location at_noon carol = None ∧
  time.Location_String (location at_noon carol) = "UTC" ∧
  usersByTimezone at_noon [ursula; carol] = {[ "UTC" := [ursula; carol] ]} ∧
  compactDisplay at_noon noon (noon + 3600) [ursula; carol]
    = Some (nl +:+ "- Ursula Ueda and 1 other: 12:00pm - 1:00pm (UTC)") ∧
  length big_channel = 51%nat ∧
  compactDisplay big noon (noon + 3600) big_channel = None ∧
  (ExecuteCommand big 2 (sample_plugin 1000) (whentochat_by "u-0") st0).1 = Panic.
Proof. split_and!; by vm_compute. Qed.

(** ** The claims about [ExecuteCommand] *)

Lemma arrangeUserFirst_length (userID : string) (users sorted : list User) :
  arrangeUserFirst userID users = Some sorted → length sorted = length users.
Proof.
  unfold arrangeUserFirst, index, slice_to, slice_from.
  set (indexOfUser := indexOfUser_loop userID 0 users 0).
  destruct (users !! indexOfUser) as [pivot|] eqn:Hpivot; simpl; [|done].
  apply lookup_lt_Some in Hpivot.
  rewrite !bool_decide_eq_true_2 by lia. simpl. intros [= <-].
  simpl. rewrite length_app, length_take, length_drop. lia.
Qed.

(** C7.  A run of the command that fetched the members, found a shared
    window and put the invoker first posts the verbose listing when there
    are at most 50 members and the compact listing when there are more
    (a panic inside the compact listing is a panic of the command). *)
Theorem display_mode_by_member_count (w : World) (fuel : nat) (p : Plugin)
    (args : CommandArgs) (st st1 st2 : State) (users arranged : list User)
    (s e : time.Time) :
  index (gostrings.Fields (args_Command args)) 0 = Some "/whentochat" →
  allUsers w fuel (args_ChannelId args) (MaxChannelMembers (getConfiguration p)) st
    = (Val (users, None), st1) →
  window w users st1 = ((s, e, true), st2) →
  arrangeUserFirst (args_UserId args) users = Some arranged →
  let reply message :=
    emit (EvSendEphemeralPost (args_UserId args)
            (mkPost (BotUserID p) (args_ChannelId args)
                    ("It looks like the best times to chat are:" +:+ nl +:+ message))) st2 in
  ExecuteCommand w fuel p args st =
    if bool_decide (length users ≤ 50)%nat
    then (Val CommandResponse, reply (verboseDisplay w s e arranged))
    else match compactDisplay w s e arranged with
         | Some message => (Val CommandResponse, reply message)
         | None => (Panic, st2)
         end.
Proof.
  intros Hcmd Hfetch Hwin Harr reply.
  unfold ExecuteCommand, bind, orPanic. rewrite Hcmd. unfold ret at 1.
  rewrite bool_decide_eq_false_2 by (intros H; by apply H).
  rewrite Hfetch. cbv beta iota delta [non_nil_and].
  rewrite Hwin. simpl. rewrite Harr. unfold ret at 1.
  rewrite (arrangeUserFirst_length _ _ _ Harr). unfold maxDisplayUserBullets.
  case_bool_decide; [reflexivity|].
  by destruct (compactDisplay w s e arranged).
Qed.

Lemma display_mode_by_member_count_witness :
  ExecuteCommand at_noon 3 (sample_plugin 100) (whentochat_by "u-bob") st0
  = (Val CommandResponse,
     emit (EvSendEphemeralPost "u-bob"
             (mkPost "bot-id" "town-square"
                ("It looks like the best times to chat are:" +:+ nl +:+
                 verboseDisplay at_noon 1728043200 1728046800 [bob; alice; carol; dan])))
          (mkState 3 [EvGetUsersInChannel "town-square" "username" 0 100; EvNow; EvNow; EvNow])).
Proof.
  apply (display_mode_by_member_count at_noon 3 (sample_plugin 100) (whentochat_by "u-bob")
           st0 (mkState 0 [EvGetUsersInChannel "town-square" "username" 0 100])
           (mkState 3 [EvGetUsersInChannel "town-square" "username" 0 100; EvNow; EvNow; EvNow])
           [alice; bob; carol; dan] [bob; alice; carol; dan] 1728043200 1728046800);
    reflexivity.
Defined.

Lemma members_between_S (w : World) (channelID : string) (page n : nat) :
  members_between w channelID page (S n)
  = (page_members w channelID page ++ members_between w channelID (S page) n)%list.
Proof. reflexivity. Qed.

Lemma fetches_S (channelID : string) (page n : nat) :
  fetches channelID page (S n)
  = EvGetUsersInChannel channelID "username" page batchSize :: fetches channelID (S page) n.
Proof. reflexivity. Qed.

(** The loop of [allUsers] when the running total first passes the limit
    with the page [page + k]: it has fetched the pages up to that one and
    no other, and it returns the members so far with the sentinel error. *)
Lemma allUsers_loop_over_cap (w : World) (channelID : string) (limit : Z) (k : nat) :
  ∀ (fuel page : nat) (acc : list User) (st : State),
    (k < fuel)%nat →
    (∀ j, (j < k)%nat →
       ∃ usersBatch,
         api_GetUsersInChannel w channelID "username" (page + j) batchSize = inl usersBatch ∧
         (batchSize ≤ length usersBatch)%nat ∧
         Z.of_nat (length (acc ++ members_between w channelID page (S j))) ≤ limit) →
    (∃ usersBatch,
       api_GetUsersInChannel w channelID "username" (page + k) batchSize = inl usersBatch) →
    limit < Z.of_nat (length (acc ++ members_between w channelID page (S k))) →
    allUsers_loop w fuel channelID limit page acc st
    = (Val ((acc ++ members_between w channelID page (S k))%list, Some errMaxChannelMembers),
       mkState (ticks st) (trace st ++ fetches channelID page (S k))).
Proof.
  induction k as [|k IH]; intros fuel page acc st Hfuel Hbelow [usersBatch Hpage] Hover;
    (destruct fuel as [|fuel]; [lia|]); simpl allUsers_loop;
    unfold bind, GetUsersInChannel.
  - rewrite Nat.add_0_r in Hpage. rewrite Hpage.
    unfold members_between, page_members in Hover |- *. simpl in Hover |- *.
    rewrite Hpage, app_nil_r in Hover |- *.
    by rewrite bool_decide_eq_true_2.
  - destruct (Hbelow 0%nat ltac:(lia)) as (first & Hfirst & Hfull & Hfits).
    rewrite Nat.add_0_r in Hfirst. rewrite Hfirst.
    assert (Hmem : page_members w channelID page = filter (λ user, IsBot user = false) first)
      by (unfold page_members; by rewrite Hfirst).
    unfold members_between in Hfits. simpl in Hfits. rewrite app_nil_r, Hmem in Hfits.
    rewrite bool_decide_eq_false_2 by lia.
    rewrite bool_decide_eq_false_2 by lia.
    rewrite (IH fuel (S page) _ (emit _ st)).
    + rewrite (members_between_S w channelID page (S k)), Hmem, <- app_assoc.
      rewrite (fetches_S channelID page (S k)). unfold emit. simpl.
      by rewrite <- app_assoc.
    + lia.
    + intros j Hj. destruct (Hbelow (S j) ltac:(lia)) as (b & Hb & Hbfull & Hbfits).
      exists b. rewrite <- Nat.add_succ_comm in Hb. split_and!; [done | done |].
      rewrite (members_between_S w channelID page (S j)), Hmem in Hbfits.
      by rewrite <- app_assoc.
    + exists usersBatch. by rewrite <- Nat.add_succ_comm in Hpage.
    + rewrite (members_between_S w channelID page (S k)), Hmem in Hover.
      by rewrite <- app_assoc.
Qed.

(** C8.  Let page [k] be the first page with which the running total of
    non-bot members passes the configured maximum (the pages before it
    were full and the total fitted).  Then the command fetches the pages
    0 to [k] and no other, sends the fixed reply, and does nothing else:
    the clock, which [window] reads, is not read. *)
Theorem over_cap_stops_paging (w : World) (fuel : nat) (p : Plugin)
    (args : CommandArgs) (st : State) (k : nat) :
  let channelID := args_ChannelId args in
  let limit := MaxChannelMembers (getConfiguration p) in
  index (gostrings.Fields (args_Command args)) 0 = Some "/whentochat" →
  (k < fuel)%nat →
  (∀ j, (j < k)%nat →
     ∃ usersBatch,
       api_GetUsersInChannel w channelID "username" j batchSize = inl usersBatch ∧
       (batchSize ≤ length usersBatch)%nat ∧
       Z.of_nat (length (members_between w channelID 0 (S j))) ≤ limit) →
  (∃ usersBatch, api_GetUsersInChannel w channelID "username" k batchSize = inl usersBatch) →
  limit < Z.of_nat (length (members_between w channelID 0 (S k))) →
  ExecuteCommand w fuel p args st
  = (Val CommandResponse,
     mkState (ticks st)
       (trace st ++ fetches channelID 0 (S k)
          ++ [EvSendEphemeralPost (args_UserId args)
                (mkPost (BotUserID p) channelID "Too many channel members.")])).
Proof.
  intros channelID limit Hcmd Hfuel Hbelow Hpage Hover.
  unfold ExecuteCommand, bind, orPanic. rewrite Hcmd. unfold ret at 1.
  rewrite bool_decide_eq_false_2 by (intros H; by apply H).
  unfold allUsers. fold channelID limit.
  rewrite (allUsers_loop_over_cap w channelID limit k fuel 0 [] st Hfuel); try done.
  unfold SendEphemeralPost, ret, emit. simpl. by rewrite <- app_assoc.
Qed.

Lemma over_cap_stops_paging_witness :
  ExecuteCommand crowded 5 (sample_plugin 100) (whentochat_by "u-bob") st0
  = (Val CommandResponse,
     mkState 0
       [EvGetUsersInChannel "town-square" "username" 0 100;
        EvGetUsersInChannel "town-square" "username" 1 100;
        EvSendEphemeralPost "u-bob" (mkPost "bot-id" "town-square" "Too many channel members.")]).
Proof.
  apply (over_cap_stops_paging crowded 5 (sample_plugin 100) (whentochat_by "u-bob") st0 1).
  - reflexivity.
  - lia.
  - intros j Hj. assert (j = 0%nat) as -> by lia.
    eexists. split_and!; [reflexivity | vm_compute; lia | vm_compute; discriminate].
  - eexists. reflexivity.
  - vm_compute. reflexivity.
Defined.

(** ** More about [window] *)

Lemma contributing_cons_resolved (w : World) (u : User) (users : list User) (l : time.Location) :
  location w u = Some l → contributing w (u :: users) = u :: contributing w users.
Proof.
  intros Hl. unfold contributing. apply filter_cons_True.
  unfold resolvable. rewrite Hl. by eexists.
Qed.

Lemma contributing_cons_unresolved (w : World) (u : User) (users : list User) :
  location w u = None → contributing w (u :: users) = contributing w users.
Proof.
  intros Hl. unfold contributing. apply filter_cons_False.
  unfold resolvable. rewrite Hl. by intros [? ?].
Qed.

(** A run of the loop that reaches the end of a first part goes on with
    the rest from the bounds, the index and the state it has then. *)
Lemma window_loop_app (w : World) (pre post : list User) :
  ∀ i start end_ st s e st1,
    window_loop w i pre start end_ st = ((s, e, true), st1) →
    window_loop w i (pre ++ post) start end_ st
    = window_loop w (i + length pre) post s e st1.
Proof.
  induction pre as [|u rest IH]; intros i start end_ st s e st1; simpl.
  - intros [= <- <- <-]. by rewrite Nat.add_0_r.
  - rewrite <- Nat.add_succ_comm.
    destruct (location w u) as [loc|]; [|apply IH].
    destruct (bool_decide (i = 0%nat)); simpl;
      destruct (_ || _); first [done | apply IH].
Qed.

(** X1.  [window] on a list in two parts: if the first part alone gives a
    shared window, the whole list is the loop run on the second part from
    those bounds, with the indices and the clock where the first part
    left them. *)
Theorem window_app_continues (w : World) (pre post : list User) (st st1 : State)
    (s e : time.Time) :
  window w pre st = ((s, e, true), st1) →
  window w (pre ++ post) st = window_loop w (length pre) post s e st1.
Proof. intros Hpre. by apply (window_loop_app w pre post 0). Qed.

Lemma window_app_continues_witness :
  window at_noon ([alice; bob] ++ [carol; erin]) st0
  = window_loop at_noon 2 [carol; erin] 1728043200 1728046800 (mkState 2 [EvNow; EvNow]).
Proof.
  apply (window_app_continues at_noon [alice; bob] [carol; erin] st0).
  reflexivity.
Defined.

(** The effects of the loop: [n] readings of the clock and nothing else. *)
Lemma window_loop_clock (w : World) (users : list User) :
  ∀ i start end_ st,
    ∃ n : nat,
      (window_loop w i users start end_ st).2
        = mkState (ticks st + n) (trace st ++ replicate n EvNow) ∧
      (n ≤ length (contributing w users))%nat ∧
      ((window_loop w i users start end_ st).1.2 = true →
         n = length (contributing w users)).
Proof.
  induction users as [|u rest IH]; intros i start end_ st; simpl.
  - exists 0%nat. destruct st as [t tr]. simpl.
    rewrite Nat.add_0_r, app_nil_r. by split_and!.
  - destruct (location w u) as [loc|] eqn:Hloc.
    + rewrite (contributing_cons_resolved w u rest loc Hloc).
      destruct (bool_decide (i = 0%nat)); simpl;
        (destruct (_ || _); simpl;
         [ exists 1%nat; simpl; split_and!; [by rewrite Nat.add_1_r | lia | done]
         | match goal with
           | |- context [window_loop w ?i' rest ?s' ?e' ?st'] =>
               destruct (IH i' s' e' st') as (n & Hst & Hle & Hfull)
           end;
           exists (S n); rewrite Hst; simpl;
           split_and!;
           [ by rewrite <- Nat.add_succ_comm, <- app_assoc
           | lia
           | intros Hok; by rewrite (Hfull Hok) ] ]).
    + rewrite (contributing_cons_unresolved w u rest Hloc). apply IH.
Qed.

(** X2.  The only effect of [window] is reading the clock: once for each
    member with a zone that the loop reaches, so at most once per such
    member, and exactly once per such member when a window is reported. *)
Theorem window_reads_clock (w : World) (users : list User) (st : State) :
  ∃ n : nat,
    (window w users st).2 = mkState (ticks st + n) (trace st ++ replicate n EvNow) ∧
    (n ≤ length (contributing w users))%nat ∧
    ((window w users st).1.2 = true → n = length (contributing w users)).
Proof. apply window_loop_clock. Qed.

(** One iteration on a member with a zone, with the two conditional
    assignments read as a maximum and a minimum. *)
Lemma window_loop_cons_resolved (w : World) (i : nat) (u : User) (rest : list User)
    (start end_ : time.Time) (st : State) (loc : time.Location) :
  location w u = Some loc →
  let start1 := Z.max (if bool_decide (i = 0%nat) then dailyStart w (ticks st) loc else start)
                      (dailyStart w (ticks st) loc) in
  let end1 := Z.min (if bool_decide (i = 0%nat) then dailyEnd w (ticks st) loc else end_)
                    (dailyEnd w (ticks st) loc) in
  window_loop w i (u :: rest) start end_ st
  = if bool_decide (end1 ≤ start1)
    then ((start1, end1, false), (Now w st).2)
    else window_loop w (S i) rest start1 end1 (Now w st).2.
Proof.
  intros Hloc. simpl. rewrite Hloc. unfold dailyStart, dailyEnd.
  set (ues := time.Date _ 7 loc). set (ule := time.Date _ 22 loc).
  destruct (bool_decide (i = 0%nat)); simpl;
    unfold time.After, time.Before, time.Equal;
    repeat case_bool_decide; simpl;
    repeat match goal with
           | |- context [Z.max ?a ?b] =>
               first [rewrite (Z.max_l a b) by lia | rewrite (Z.max_r a b) by lia]
           | |- context [Z.min ?a ?b] =>
               first [rewrite (Z.min_l a b) by lia | rewrite (Z.min_r a b) by lia]
           end;
    first [reflexivity | lia].
Qed.

Lemma window_loop_cons_unresolved (w : World) (i : nat) (u : User) (rest : list User)
    (start end_ : time.Time) (st : State) :
  location w u = None →
  window_loop w i (u :: rest) start end_ st = window_loop w (S i) rest start end_ st.
Proof. intros Hloc. simpl. by rewrite Hloc. Qed.

(** When the loop reaches its end, each bound is the one it started with
    or the bound of some member. *)
Lemma window_loop_attained (w : World) (users : list User) :
  ∀ i start end_ st s e st',
    window_loop w i users start end_ st = ((s, e, true), st') →
    (s = start ∨
     ∃ j u l, users !! j = Some u ∧ location w u = Some l ∧
       s = dailyStart w (ticks st + length (contributing w (take j users))) l) ∧
    (e = end_ ∨
     ∃ j u l, users !! j = Some u ∧ location w u = Some l ∧
       e = dailyEnd w (ticks st + length (contributing w (take j users))) l).
Proof.
  induction users as [|u rest IH]; intros i start end_ st s e st'.
  - simpl. intros [= <- <- <-]. split; by left.
  - destruct (location w u) as [loc|] eqn:Hloc.
    + rewrite (window_loop_cons_resolved w i u rest start end_ st loc Hloc).
      case_bool_decide as Hcheck; [done|]. intros Hrun.
      apply IH in Hrun as [Hs He]. simpl ticks in Hs, He.
      assert (Hshift : ∀ j, (S (ticks st) + length (contributing w (take j rest)))%nat
                            = (ticks st + length (contributing w (take (S j) (u :: rest))))%nat).
      { intros j. simpl take. rewrite (contributing_cons_resolved w u _ loc Hloc). simpl. lia. }
      split.
      * destruct Hs as [->|(j & v & l & Hv & Hl & ->)].
        -- destruct (bool_decide (i = 0%nat));
             [ right | destruct (Z.max_spec start (dailyStart w (ticks st) loc)) as [[_ ->]|[_ ->]];
                       [right | by left] ];
             (exists 0%nat, u, loc; simpl; rewrite Nat.add_0_r;
              split_and!; [done | done | lia]).
        -- right. exists (S j), v, l. by rewrite <- Hshift.
      * destruct He as [->|(j & v & l & Hv & Hl & ->)].
        -- destruct (bool_decide (i = 0%nat));
             [ right | destruct (Z.min_spec end_ (dailyEnd w (ticks st) loc)) as [[_ ->]|[_ ->]];
                       [by left | right] ];
             (exists 0%nat, u, loc; simpl; rewrite Nat.add_0_r;
              split_and!; [done | done | lia]).
        -- right. exists (S j), v, l. by rewrite <- Hshift.
    + rewrite (window_loop_cons_unresolved w i u rest start end_ st Hloc). intros Hrun.
      apply IH in Hrun as [Hs He].
      assert (Hshift : ∀ j, length (contributing w (take j rest))
                            = length (contributing w (take (S j) (u :: rest)))).
      { intros j. simpl take. by rewrite (contributing_cons_unresolved w u _ Hloc). }
      split.
      * destruct Hs as [->|(j & v & l & Hv & Hl & ->)]; [by left|].
        right. exists (S j), v, l. by rewrite <- Hshift.
      * destruct He as [->|(j & v & l & Hv & Hl & ->)]; [by left|].
        right. exists (S j), v, l. by rewrite <- Hshift.
Qed.

(** With a first member that has a zone, both bounds are bounds of members. *)
Lemma window_attained (w : World) (u0 : User) (rest : list User) (l0 : time.Location)
    (st st' : State) (s e : time.Time) :
  location w u0 = Some l0 →
  window w (u0 :: rest) st = ((s, e, true), st') →
  (∃ j u l, (u0 :: rest) !! j = Some u ∧ location w u = Some l ∧
     s = dailyStart w (ticks st + length (contributing w (take j (u0 :: rest)))) l) ∧
  (∃ j u l, (u0 :: rest) !! j = Some u ∧ location w u = Some l ∧
     e = dailyEnd w (ticks st + length (contributing w (take j (u0 :: rest)))) l).
Proof.
  intros Hl0 Hrun.
  assert (Hzero : ∀ start end_,
    window_loop w 0 (u0 :: rest) start end_ st
    = window_loop w 0 (u0 :: rest) (dailyStart w (ticks st) l0) (dailyEnd w (ticks st) l0) st).
  { intros. by rewrite !(window_loop_cons_resolved w 0 u0 rest _ _ st l0 Hl0). }
  unfold window in Hrun. rewrite Hzero in Hrun.
  apply window_loop_attained in Hrun as [Hs He].
  split.
  - destruct Hs as [->|?]; [|done].
    exists 0%nat, u0, l0. simpl. by rewrite Nat.add_0_r.
  - destruct He as [->|?]; [|done].
    exists 0%nat, u0, l0. simpl. by rewrite Nat.add_0_r.
Qed.

(** X3.  With a first member that has a zone, the window that [window]
    reports is the intersection of the members' days: its start is the
    07:00 of some member and no member's 07:00 is later; its end is the
    22:00 of some member and no member's 22:00 is earlier. *)
Theorem window_is_intersection (w : World) (u0 : User) (rest : list User)
    (l0 : time.Location) (st st' : State) (s e : time.Time) :
  location w u0 = Some l0 →
  window w (u0 :: rest) st = ((s, e, true), st') →
  let users := u0 :: rest in
  let reading j := (ticks st + length (contributing w (take j users)))%nat in
  (∃ j u l, users !! j = Some u ∧ location w u = Some l ∧ s = dailyStart w (reading j) l) ∧
  (∃ j u l, users !! j = Some u ∧ location w u = Some l ∧ e = dailyEnd w (reading j) l) ∧
  (∀ j u l, users !! j = Some u → location w u = Some l →
     dailyStart w (reading j) l ≤ s ∧ e ≤ dailyEnd w (reading j) l).
Proof.
  intros Hl0 Hrun users reading.
  destruct (window_attained w u0 rest l0 st st' s e Hl0 Hrun) as [Hs He].
  split_and!; [exact Hs | exact He |].
  apply window_loop_true in Hrun as (_ & _ & Hmem). exact Hmem.
Qed.

Lemma window_is_intersection_witness :
  (∃ j u l, [alice; bob] !! j = Some u ∧ location at_noon u = Some l ∧
     1728043200 = dailyStart at_noon (0 + length (contributing at_noon (take j [alice; bob]))) l) ∧
  (∃ j u l, [alice; bob] !! j = Some u ∧ location at_noon u = Some l ∧
     1728046800 = dailyEnd at_noon (0 + length (contributing at_noon (take j [alice; bob]))) l) ∧
  (∀ j u l, [alice; bob] !! j = Some u → location at_noon u = Some l →
     dailyStart at_noon (0 + length (contributing at_noon (take j [alice; bob]))) l ≤ 1728043200 ∧
     1728046800 ≤ dailyEnd at_noon (0 + length (contributing at_noon (take j [alice; bob]))) l).
Proof.
  apply (window_is_intersection at_noon alice [bob] tokyo st0 (mkState 2 [EvNow; EvNow]));
    reflexivity.
Defined.

Lemma zones_cons_resolved (w : World) (u : User) (users : list User) (l : time.Location) :
  location w u = Some l → zones w (u :: users) = l :: zones w users.
Proof. intros Hl. unfold zones. simpl. by rewrite Hl. Qed.

Lemma zones_cons_unresolved (w : World) (u : User) (users : list User) :
  location w u = None → zones w (u :: users) = zones w users.
Proof. intros Hl. unfold zones. simpl. by rewrite Hl. Qed.

Lemma elem_of_zones (w : World) (users : list User) (l : time.Location) :
  l ∈ zones w users ↔ ∃ j u, users !! j = Some u ∧ location w u = Some l.
Proof.
  unfold zones. rewrite list_elem_of_omap. split.
  - intros (u & Hu & Hl). apply list_elem_of_lookup in Hu as [j Hj]. by exists j, u.
  - intros (j & u & Hj & Hl). exists u. split; [|done]. by eapply list_elem_of_lookup_2.
Qed.

(** While every reading of the clock is on day [D] of the server, the loop
    reaches its end if the bounds it has are apart, every later member's
    day meets them, and the later members' zones are less than 15 hours
    apart. *)
Lemma window_loop_reaches_end (w : World) (D : Z) (users : list User) :
  (∀ k, time.civil_day (clock w k) (Local w) = D) →
  ∀ i start end_ st,
    i ≠ 0%nat →
    start < end_ →
    (∀ l, l ∈ zones w users → start < time.Date D 22 l ∧ time.Date D 7 l < end_) →
    (∀ l1 l2, l1 ∈ zones w users → l2 ∈ zones w users →
       time.offset l1 - time.offset l2 < 15 * 3600) →
    (window_loop w i users start end_ st).1.2 = true.
Proof.
  intros Hday. induction users as [|u rest IH]; intros i start end_ st Hi Hlt Hmeet Hspread.
  - reflexivity.
  - destruct (location w u) as [loc|] eqn:Hloc.
    + rewrite (window_loop_cons_resolved w i u rest start end_ st loc Hloc).
      rewrite (zones_cons_resolved w u rest loc Hloc) in Hmeet, Hspread.
      rewrite (bool_decide_eq_false_2 (i = 0%nat)) by done.
      unfold dailyStart, dailyEnd. rewrite Hday.
      destruct (Hmeet loc) as [Hs He]; [apply list_elem_of_here|].
      assert (Hown : time.Date D 7 loc < time.Date D 22 loc) by (unfold time.Date; lia).
      rewrite bool_decide_eq_false_2 by lia.
      apply IH; [lia | lia | |].
      * intros l Hl.
        destruct (Hmeet l) as [? ?]; [by apply list_elem_of_further|].
        pose proof (Hspread l loc ltac:(by apply list_elem_of_further)
                      ltac:(apply list_elem_of_here)).
        pose proof (Hspread loc l ltac:(apply list_elem_of_here)
                      ltac:(by apply list_elem_of_further)).
        unfold time.Date in *. lia.
      * intros l1 l2 H1 H2. apply Hspread; by apply list_elem_of_further.
    + rewrite (window_loop_cons_unresolved w i u rest start end_ st Hloc).
      rewrite (zones_cons_unresolved w u rest Hloc) in Hmeet, Hspread.
      by apply IH.
Qed.

(** The same for [window] itself, when the first member has a zone. *)
Lemma window_reaches_end (w : World) (D : Z) (u0 : User) (rest : list User)
    (l0 : time.Location) (st : State) :
  (∀ k, time.civil_day (clock w k) (Local w) = D) →
  location w u0 = Some l0 →
  (∀ l1 l2, l1 ∈ zones w (u0 :: rest) → l2 ∈ zones w (u0 :: rest) →
     time.offset l1 - time.offset l2 < 15 * 3600) →
  (window w (u0 :: rest) st).1.2 = true.
Proof.
  intros Hday Hl0 Hspread. unfold window.
  rewrite (window_loop_cons_resolved w 0 u0 rest _ _ st l0 Hl0).
  rewrite (zones_cons_resolved w u0 rest l0 Hl0) in Hspread.
  rewrite (bool_decide_eq_true_2 (0%nat = 0%nat)) by done.
  unfold dailyStart, dailyEnd. rewrite Hday.
  assert (Hown : time.Date D 7 l0 < time.Date D 22 l0) by (unfold time.Date; lia).
  rewrite bool_decide_eq_false_2 by lia.
  apply (window_loop_reaches_end w D rest Hday); [lia | lia | |].
  - intros l Hl.
    pose proof (Hspread l l0 ltac:(by apply list_elem_of_further) ltac:(apply list_elem_of_here)).
    pose proof (Hspread l0 l ltac:(apply list_elem_of_here) ltac:(by apply list_elem_of_further)).
    unfold time.Date in *. lia.
  - intros l1 l2 H1 H2. apply Hspread; by apply list_elem_of_further.
Qed.

(** X4.  While the server stays on one calendar day and the first member
    has a zone, [window] reports a shared window exactly when the UTC
    offsets of the members' zones differ by less than 15 hours. *)
Theorem window_iff_fifteen_hours (w : World) (D : Z) (u0 : User) (rest : list User)
    (l0 : time.Location) (st : State) :
  (∀ k, time.civil_day (clock w k) (Local w) = D) →
  location w u0 = Some l0 →
  (window w (u0 :: rest) st).1.2 = true ↔
  (∀ l1 l2, l1 ∈ zones w (u0 :: rest) → l2 ∈ zones w (u0 :: rest) →
     time.offset l1 - time.offset l2 < 15 * 3600).
Proof.
  intros Hday Hl0. split.
  - intros Hok l1 l2 H1 H2.
    destruct (window w (u0 :: rest) st) as [[[s e] ok] st'] eqn:Hrun.
    simpl in Hok. subst ok.
    apply elem_of_zones in H1 as (j1 & u1 & Hj1 & Hu1).
    apply elem_of_zones in H2 as (j2 & u2 & Hj2 & Hu2).
    apply window_loop_true in Hrun as (_ & Hstrict & Hmem).
    destruct (Hmem j1 u1 l1 Hj1 Hu1) as [_ He].
    destruct (Hmem j2 u2 l2 Hj2 Hu2) as [Hs _].
    assert (s < e).
    { destruct Hstrict as [(_ & _ & Hall)|]; [|done].
      apply Forall_cons in Hall as [Hnone _]. congruence. }
    simpl in Hs, He. unfold dailyStart, dailyEnd in Hs, He. rewrite Hday in Hs, He.
    unfold time.Date in *. lia.
  - by apply (window_reaches_end w D u0 rest l0 st).
Qed.

Lemma window_iff_fifteen_hours_witness :
  (window at_noon (erin :: [fabio]) st0).1.2 = true ↔
  (∀ l1 l2, l1 ∈ zones at_noon (erin :: [fabio]) → l2 ∈ zones at_noon (erin :: [fabio]) →
     time.offset l1 - time.offset l2 < 15 * 3600).
Proof.
  apply (window_iff_fifteen_hours at_noon 20000 erin [fabio]
           (time.mkLocation "Pacific/Auckland" "NZST" 43200) st0).
  - intros k. reflexivity.
  - reflexivity.
Defined.

(** X5.  While the server stays on one calendar day, members that are all
    in one zone get exactly that zone's 07:00 to 22:00 of that day. *)
Theorem window_same_zone (w : World) (D : Z) (u0 : User) (rest : list User)
    (l : time.Location) (st : State) :
  (∀ k, time.civil_day (clock w k) (Local w) = D) →
  Forall (λ u, location w u = Some l) (u0 :: rest) →
  (window w (u0 :: rest) st).1 = (time.Date D 7 l, time.Date D 22 l, true).
Proof.
  intros Hday Hall.
  assert (Hl0 : location w u0 = Some l) by (by apply Forall_cons in Hall as [? _]).
  assert (Hzones : ∀ l', l' ∈ zones w (u0 :: rest) → l' = l).
  { intros l' (j & u & Hj & Hu)%elem_of_zones.
    rewrite Forall_forall in Hall.
    specialize (Hall u ltac:(by eapply list_elem_of_lookup_2)). congruence. }
  assert (Hok : (window w (u0 :: rest) st).1.2 = true).
  { apply (window_reaches_end w D u0 rest l st Hday Hl0).
    intros l1 l2 ->%Hzones ->%Hzones. lia. }
  destruct (window w (u0 :: rest) st) as [[[s e] ok] st'] eqn:Hrun. simpl in Hok. subst ok.
  destruct (window_attained w u0 rest l st st' s e Hl0 Hrun)
    as [(js & us & ls & Hjs & Hus & ->) (je & ue & le & Hje & Hue & ->)].
  rewrite (Hzones ls), (Hzones le) by (apply elem_of_zones; eauto).
  unfold dailyStart, dailyEnd. by rewrite !Hday.
Qed.

Lemma window_same_zone_witness :
  (window at_noon (alice :: [tokyo_member 1; tokyo_member 2]) st0).1
  = (time.Date 20000 7 tokyo, time.Date 20000 22 tokyo, true).
Proof.
  apply (window_same_zone at_noon 20000 alice [tokyo_member 1; tokyo_member 2] tokyo st0).
  - intros k. reflexivity.
  - repeat constructor.
Defined.

(** The first revision of the loop returns what the loop returns now,
    with the boolean negated. *)
Lemma window_first_revision_loop_negates (w : World) (users : list User) :
  ∀ i start end_ st,
    window_first_revision_loop w i users start end_ st
    = let r := window_loop w i users start end_ st in ((r.1.1, negb r.1.2), r.2).
Proof.
  induction users as [|u rest IH]; intros i start end_ st; simpl.
  - reflexivity.
  - destruct (location w u) as [loc|]; [|apply IH].
    destruct (bool_decide (i = 0%nat)); simpl;
      destruct (_ || _); first [reflexivity | apply IH].
Qed.

(** X6.  The first revision of [window], whose boolean meant that there
    is no shared window, computes the same bounds with the same readings
    of the clock as [window] does now, and the negated boolean. *)
Theorem window_first_revision_negates (w : World) (users : list User) (st : State) :
  window_first_revision w users st
  = let r := window w users st in ((r.1.1, negb r.1.2), r.2).
Proof. apply window_first_revision_loop_negates. Qed.

(** ** More about [arrangeUserFirst] *)

(** With nobody of the wanted id, a non-empty slice comes back as it is. *)
Lemma arrange_absent (userID : string) (v : User) (rest : list User) :
  Forall (λ u, Id u ≠ userID) (v :: rest) →
  arrangeUserFirst userID (v :: rest) = Some (v :: rest).
Proof.
  intros Habsent. apply (arrange_at userID [] rest v).
  by apply indexOfUser_loop_absent.
Qed.

(** With the wanted member in front, the slice comes back as it is. *)
Lemma arrange_front (userID : string) (v : User) (rest : list User) :
  Id v = userID → arrangeUserFirst userID (v :: rest) = Some (v :: rest).
Proof.
  intros Hid. apply (arrange_at userID [] rest v).
  simpl. by rewrite bool_decide_eq_true_2.
Qed.

(** X7.  Whatever [arrangeUserFirst] returns is a reordering of the
    members, and arranging it again for the same invoker changes nothing. *)
Theorem arrangeUserFirst_idempotent (userID : string) (users sorted : list User) :
  arrangeUserFirst userID users = Some sorted →
  sorted ≡ₚ users ∧ arrangeUserFirst userID sorted = Some sorted.
Proof.
  intros Hrun.
  destruct (decide (Exists (λ u, Id u = userID) users)) as [Hin|Hout].
  - apply Exists_exists in Hin.
    destruct (first_with_id userID users Hin) as (pre & inv & post & -> & Hid & Hpre).
    rewrite (arrange_at userID pre post inv) in Hrun
      by (by rewrite indexOfUser_loop_found).
    injection Hrun as <-. split.
    + apply Permutation_middle.
    + by apply arrange_front.
  - apply not_Exists_Forall in Hout; [|apply _].
    destruct users as [|v rest]; [done|].
    rewrite arrange_absent in Hrun by done.
    injection Hrun as <-. split; [done|]. by apply arrange_absent.
Qed.

Lemma arrangeUserFirst_idempotent_witness :
  [carol; alice; bob] ≡ₚ [alice; bob; carol]
  ∧ arrangeUserFirst "u-carol" [carol; alice; bob] = Some [carol; alice; bob].
Proof.
  apply (arrangeUserFirst_idempotent "u-carol" [alice; bob; carol] [carol; alice; bob]).
  reflexivity.
Defined.

(** ** The verbose display *)

Lemma string_app_assoc (a b c : string) : (a +:+ b) +:+ c = a +:+ (b +:+ c).
Proof.
  induction a as [|x a IH]; [done|].
  change (String x ((a +:+ b) +:+ c) = String x (a +:+ (b +:+ c))). by rewrite IH.
Qed.

Lemma string_app_nil_r (a : string) : a +:+ "" = a.
Proof.
  induction a as [|x a IH]; [done|].
  change (String x (a +:+ "") = String x a). by rewrite IH.
Qed.

(** The loop of [verboseDisplay] only appends to the message it has. *)
Lemma verboseDisplay_from (w : World) (start end_ : time.Time) (users : list User) :
  ∀ message,
    foldl (λ message user,
      match location w user with
      | None =>
          message +:+ nl +:+ "- " +:+ FirstName user +:+ " " +:+ LastName user +:+ ": ?"
      | Some loc =>
          message +:+ nl +:+ "- " +:+ GetDisplayName_full_name user +:+ ": "
            +:+ time.Format_3_04pm start loc +:+ " - "
            +:+ time.Format_3_04pm end_ loc +:+ " "
            +:+ time.Format_MST end_ loc
      end) message users
    = message +:+ verboseDisplay w start end_ users.
Proof.
  unfold verboseDisplay.
  induction users as [|u users IH]; intros message; simpl.
  - symmetry. apply string_app_nil_r.
  - etrans; [apply IH|]. symmetry.
    etrans; [apply (f_equal (String.append message)), IH|].
    rewrite <- string_app_assoc. f_equal.
    by destruct (location w u).
Qed.

(** X8.  The verbose listing of a list in two parts is the listing of the
    first part followed by the listing of the second: each member
    contributes its own line, in the order of the list, whatever the other
    members are. *)
Theorem verboseDisplay_app (w : World) (start end_ : time.Time) (users1 users2 : list User) :
  verboseDisplay w start end_ (users1 ++ users2)
  = verboseDisplay w start end_ users1 +:+ verboseDisplay w start end_ users2.
Proof.
  unfold verboseDisplay at 1. rewrite foldl_app.
  apply verboseDisplay_from.
Qed.

(** ** More about the grouping by zone *)


(** X10.  The groups of [usersByTimezone]: under a key is the list of the
    members with that key, in their order, and there is a group exactly
    for the keys that some member has.  No group is empty. *)
Theorem usersByTimezone_groups (w : World) (users : list User) (key : string)
    (group : list User) :
  usersByTimezone w users !! key = Some group ↔
  group ≠ [] ∧ group = filter (λ u, zone_key w u = key) users.
Proof.
  rewrite usersByTimezone_lookup. unfold zone_key.
  destruct (filter _ users) as [|v g]; split.
  - done.
  - by intros [Hne ->].
  - intros [= <-]. by split.
  - by intros [_ ->].
Qed.

Lemma sum_group_sizes_insert (umap : gmap string (list User)) (key : string) (u : User) :
  sum_list_with (λ entry : string * list User, length entry.2)
    (map_to_list (<[key := (default [] (umap !! key) ++ [u])%list]> umap))
  = S (sum_list_with (λ entry : string * list User, length entry.2) (map_to_list umap)).
Proof.
  destruct (umap !! key) as [g|] eqn:Hkey; simpl.
  - rewrite <- insert_delete_eq.
    rewrite map_to_list_insert by apply lookup_delete_eq.
    rewrite <- (map_to_list_delete umap key g Hkey). simpl.
    rewrite length_app. simpl. lia.
  - by rewrite map_to_list_insert.
Qed.

(** X11.  Every member is in one group: the sizes of the groups add up to
    the number of members, members without a zone included. *)
Theorem usersByTimezone_sizes (w : World) (users : list User) :
  sum_list_with (λ entry : string * list User, length entry.2)
    (map_to_list (usersByTimezone w users))
  = length users.
Proof.
  unfold usersByTimezone.
  induction users as [|u users IH] using rev_ind.
  - simpl. by rewrite map_to_list_empty.
  - rewrite foldl_app. simpl. rewrite usersByTimezone_step_files.
    rewrite sum_group_sizes_insert, IH, length_app. simpl. lia.
Qed.

(** ** When the compact display panics *)

Lemma compactDisplay_loop_panicked (w : World) (start end_ : time.Time)
    (entries : list (string * list User)) :
  foldl (compactDisplay_step w start end_) None entries = None.
Proof. induction entries as [|entry entries IH]; [done|]. simpl. apply IH. Qed.

(** The loop panics at an entry whose first member has no zone. *)
Lemma compactDisplay_loop_bad_entry (w : World) (start end_ : time.Time)
    (entries : list (string * list User)) (entry : string * list User) (first : User) :
  entry ∈ entries →
  index entry.2 0 = Some first →
  location w first = None →
  ∀ message, foldl (compactDisplay_step w start end_) message entries = None.
Proof.
  intros Hin Hfirst Hloc.
  induction entries as [|x entries IH]; intros message; [by apply elem_of_nil in Hin|].
  apply elem_of_cons in Hin as [<-|Hin]; [|cbn [foldl]; by apply IH].
  destruct message as [message|]; [|apply compactDisplay_loop_panicked].
  cbn [foldl]. unfold compactDisplay_step at 2. simpl. rewrite Hfirst. simpl.
  rewrite Hloc. simpl. apply compactDisplay_loop_panicked.
Qed.

(** The loop only panics at an entry that is empty or whose first member
    has no zone. *)
Lemma compactDisplay_loop_panics_at (w : World) (start end_ : time.Time)
    (entries : list (string * list User)) :
  ∀ message,
    foldl (compactDisplay_step w start end_) (Some message) entries = None →
    ∃ entry, entry ∈ entries ∧
      (index entry.2 0 = None ∨
       ∃ first, index entry.2 0 = Some first ∧ location w first = None).
Proof.
  induction entries as [|x entries IH]; intros message Hrun; [done|].
  cbn [foldl] in Hrun. unfold compactDisplay_step at 2 in Hrun. simpl in Hrun.
  destruct (index x.2 0) as [first|] eqn:Hfirst; simpl in Hrun.
  - destruct (location w first) as [loc|] eqn:Hloc; simpl in Hrun.
    + apply IH in Hrun as (entry & Hin & Hbad).
      exists entry. split; [by apply list_elem_of_further | done].
    + exists x. split; [apply list_elem_of_here|]. right. by exists first.
  - exists x. split; [apply list_elem_of_here|]. by left.
Qed.

(** X12.  Whatever the order in which the groups are visited,
    [compactDisplay] panics exactly when the first of the members filed
    under "UTC" has no zone; in particular it never panics when every
    member has a zone. *)
Theorem compactDisplay_panics_iff (w : World) (start end_ : time.Time) (users : list User) :
  (∀ entries, range_order w entries ≡ₚ entries) →
  compactDisplay w start end_ users = None ↔
  ∃ u, head (filter (λ u, zone_key w u = "UTC") users) = Some u ∧ location w u = None.
Proof.
  intros Horder. unfold compactDisplay. split.
  - intros Hrun. apply compactDisplay_loop_panics_at in Hrun as ([key group] & Hin & Hbad).
    rewrite Horder in Hin. apply elem_of_map_to_list in Hin.
    rewrite usersByTimezone_lookup in Hin. simpl in Hbad.
    destruct (filter (λ u, time.Location_String (location w u) = key) users)
      as [|v g] eqn:Hfilter; [done|].
    injection Hin as <-.
    destruct Hbad as [Hnone|(first & Hfirst & Hloc)]; [done|].
    injection Hfirst as <-.
    assert (Hkey : time.Location_String (location w v) = key).
    { assert (Hv : v ∈ filter (λ u, time.Location_String (location w u) = key) users)
        by (rewrite Hfilter; apply list_elem_of_here).
      by apply list_elem_of_filter in Hv as [? _]. }
    rewrite Hloc in Hkey. change (time.Location_String None) with "UTC" in Hkey.
    subst key.
    exists v. unfold zone_key. by rewrite Hfilter.
  - intros (u & Hhead & Hloc). unfold zone_key in Hhead.
    destruct (filter (λ u, time.Location_String (location w u) = "UTC") users)
      as [|v g] eqn:Hfilter; [done|].
    injection Hhead as ->.
    apply (compactDisplay_loop_bad_entry w start end_ _ ("UTC", u :: g) u); [|done|done].
    rewrite Horder. apply elem_of_map_to_list.
    by rewrite usersByTimezone_lookup, Hfilter.
Qed.

Lemma compactDisplay_panics_iff_witness :
  compactDisplay at_noon noon (noon + 3600) [alice; carol; ursula] = None ↔
  ∃ u, head (filter (λ u, zone_key at_noon u = "UTC") [alice; carol; ursula]) = Some u
       ∧ location at_noon u = None.
Proof.
  apply (compactDisplay_panics_iff at_noon noon (noon + 3600) [alice; carol; ursula]).
  intros entries. reflexivity.
Defined.

(** ** More about [allUsers] *)

Lemma state_eta (st : State) : st = mkState (ticks st) (trace st ++ []).
Proof. destruct st. simpl. by rewrite app_nil_r. Qed.

(** One turn of the loop, by what the host answers. *)
Lemma allUsers_loop_step (w : World) (fuel : nat) (channelID : string) (limit : Z)
    (page : nat) (acc : list User) (st : State) :
  allUsers_loop w (S fuel) channelID limit page acc st
  = let st1 := emit (EvGetUsersInChannel channelID "username" page batchSize) st in
    match api_GetUsersInChannel w channelID "username" page batchSize with
    | inr err => (Val ([], Some (errors_New err)), st1)
    | inl usersBatch =>
        let allUsers := (acc ++ filter (λ user, IsBot user = false) usersBatch)%list in
        if bool_decide (limit < Z.of_nat (length allUsers))
        then (Val (allUsers, Some errMaxChannelMembers), st1)
        else if bool_decide (length usersBatch < batchSize)%nat
        then (Val (allUsers, None), st1)
        else allUsers_loop w fuel channelID limit (S page) allUsers st1
    end.
Proof.
  simpl. unfold bind, GetUsersInChannel.
  destruct (api_GetUsersInChannel w channelID "username" page batchSize); [|done].
  simpl. by repeat case_bool_decide.
Qed.

(** Full pages that keep the total within the limit are passed over. *)
Lemma allUsers_loop_skip_full (w : World) (channelID : string) (limit : Z) (k : nat) :
  ∀ (fuel page : nat) (acc : list User) (st : State),
    (∀ j, (j < k)%nat →
       ∃ usersBatch,
         api_GetUsersInChannel w channelID "username" (page + j) batchSize = inl usersBatch ∧
         (batchSize ≤ length usersBatch)%nat ∧
         Z.of_nat (length (acc ++ members_between w channelID page (S j))) ≤ limit) →
    allUsers_loop w (k + fuel) channelID limit page acc st
    = allUsers_loop w fuel channelID limit (page + k)
        (acc ++ members_between w channelID page k)
        (mkState (ticks st) (trace st ++ fetches channelID page k)).
Proof.
  induction k as [|k IH]; intros fuel page acc st Hfull.
  - simpl. unfold members_between, fetches. simpl.
    by rewrite Nat.add_0_r, app_nil_r, <- state_eta.
  - destruct (Hfull 0%nat ltac:(lia)) as (first & Hfirst & Hlen & Hfits).
    rewrite Nat.add_0_r in Hfirst.
    assert (Hmem : page_members w channelID page = filter (λ user, IsBot user = false) first)
      by (unfold page_members; by rewrite Hfirst).
    change (S k + fuel)%nat with (S (k + fuel)).
    rewrite allUsers_loop_step, Hfirst. simpl.
    unfold members_between in Hfits. simpl in Hfits. rewrite app_nil_r, Hmem in Hfits.
    rewrite bool_decide_eq_false_2 by lia.
    rewrite bool_decide_eq_false_2 by lia.
    rewrite IH.
    + rewrite (members_between_S w channelID page k), Hmem, <- app_assoc.
      rewrite (fetches_S channelID page k). unfold emit. simpl.
      by rewrite <- Nat.add_succ_comm, <- app_assoc.
    + intros j Hj. destruct (Hfull (S j) ltac:(lia)) as (b & Hb & Hbfull & Hbfits).
      exists b. rewrite <- Nat.add_succ_comm in Hb. split_and!; [done | done |].
      rewrite (members_between_S w channelID page (S j)), Hmem in Hbfits.
      by rewrite <- app_assoc.
Qed.

Lemma allUsers_skip_full (w : World) (channelID : string) (limit : Z) (k fuel : nat)
    (st : State) :
  (∀ j, (j < k)%nat →
     ∃ usersBatch,
       api_GetUsersInChannel w channelID "username" j batchSize = inl usersBatch ∧
       (batchSize ≤ length usersBatch)%nat ∧
       Z.of_nat (length (members_between w channelID 0 (S j))) ≤ limit) →
  allUsers w (k + fuel) channelID limit st
  = allUsers_loop w fuel channelID limit k (members_between w channelID 0 k)
      (mkState (ticks st) (trace st ++ fetches channelID 0 k)).
Proof.
  intros Hfull. unfold allUsers.
  by rewrite (allUsers_loop_skip_full w channelID limit k fuel 0 [] st).
Qed.

(** X13.  When the pages before page [k] are full, page [k] is short, and
    the total never passes the limit, [allUsers] asks for the pages 0 to
    [k] and no other, and returns the non-bot members of those pages in
    order, with no error. *)
Theorem allUsers_stops_at_short_page (w : World) (fuel : nat) (channelID : string)
    (limit : Z) (st : State) (k : nat) (last : list User) :
  (k < fuel)%nat →
  (∀ j, (j < k)%nat →
     ∃ usersBatch,
       api_GetUsersInChannel w channelID "username" j batchSize = inl usersBatch ∧
       (batchSize ≤ length usersBatch)%nat ∧
       Z.of_nat (length (members_between w channelID 0 (S j))) ≤ limit) →
  api_GetUsersInChannel w channelID "username" k batchSize = inl last →
  (length last < batchSize)%nat →
  Z.of_nat (length (members_between w channelID 0 (S k))) ≤ limit →
  allUsers w fuel channelID limit st
  = (Val (members_between w channelID 0 (S k), None),
     mkState (ticks st) (trace st ++ fetches channelID 0 (S k))).
Proof.
  intros Hfuel Hfull Hlast Hshort Hfits.
  replace fuel with (k + S (fuel - S k))%nat by lia.
  rewrite (allUsers_skip_full w channelID limit k _ st Hfull).
  rewrite allUsers_loop_step, Hlast. simpl.
  assert (Hall : members_between w channelID 0 (S k)
                 = (members_between w channelID 0 k
                    ++ filter (λ user, IsBot user = false) last)%list).
  { unfold members_between. rewrite seq_S, map_app, concat_app. simpl.
    unfold page_members at 2. by rewrite Hlast, app_nil_r. }
  rewrite <- Hall.
  rewrite bool_decide_eq_false_2 by lia.
  rewrite bool_decide_eq_true_2 by done.
  unfold emit. cbn [ticks trace].
  unfold fetches. rewrite (seq_S k 0), map_app, app_assoc. reflexivity.
Qed.

Lemma allUsers_stops_at_short_page_witness :
  allUsers crowded 5 "town-square" 1000 st0
  = (Val (members_between crowded "town-square" 0 2, None),
     mkState 0 ([] ++ fetches "town-square" 0 2)).
Proof.
  apply (allUsers_stops_at_short_page crowded 5 "town-square" 1000 st0 1 [alice; bob; carol]).
  - lia.
  - intros j Hj. assert (j = 0%nat) as -> by lia.
    eexists. split_and!; [reflexivity | vm_compute; lia | vm_compute; discriminate].
  - reflexivity.
  - vm_compute. lia.
  - vm_compute. discriminate.
Defined.

(** What the loop keeps: no bot gets into the list, and the error tells
    how the loop ended. *)
Lemma allUsers_loop_invariant (w : World) (channelID : string) (limit : Z) (fuel : nat) :
  ∀ (page : nat) (acc : list User) (st st' : State) (users : list User) (err : option error),
    Forall (λ u, IsBot u = false) acc →
    allUsers_loop w fuel channelID limit page acc st = (Val (users, err), st') →
    Forall (λ u, IsBot u = false) users ∧
    match err with
    | None => Z.of_nat (length users) ≤ limit
    | Some errMaxChannelMembers => limit < Z.of_nat (length users)
    | Some (errors_New _) => users = []
    end.
Proof.
  induction fuel as [|fuel IH]; intros page acc st st' users err Hacc; [done|].
  rewrite allUsers_loop_step. simpl.
  destruct (api_GetUsersInChannel w channelID "username" page batchSize) as [batch|msg].
  - assert (Hnext : Forall (λ u, IsBot u = false)
                      (acc ++ filter (λ user, IsBot user = false) batch)).
    { apply Forall_app. split; [done|]. apply Forall_forall.
      by intros u [? _]%list_elem_of_filter. }
    repeat case_bool_decide.
    + intros [= <- <- <-]. by split.
    + intros [= <- <- <-]. split; [done | lia].
    + by apply IH.
  - intros [= <- <- <-]. by split.
Qed.

(** X14.  Whatever [allUsers] returns holds no bot.  With no error the
    list is within the limit; with the sentinel error it is over the
    limit; with an error of the host it is empty. *)
Theorem allUsers_result (w : World) (fuel : nat) (channelID : string) (limit : Z)
    (st st' : State) (users : list User) (err : option error) :
  allUsers w fuel channelID limit st = (Val (users, err), st') →
  Forall (λ u, IsBot u = false) users ∧
  match err with
  | None => Z.of_nat (length users) ≤ limit
  | Some errMaxChannelMembers => limit < Z.of_nat (length users)
  | Some (errors_New _) => users = []
  end.
Proof. apply allUsers_loop_invariant. constructor. Qed.

Lemma allUsers_result_witness :
  Forall (λ u, IsBot u = false) [alice; bob; carol; dan] ∧
  Z.of_nat (length [alice; bob; carol; dan]) ≤ 10.
Proof.
  apply (allUsers_result at_noon 3 "town-square" 10 st0
           (mkState 0 [EvGetUsersInChannel "town-square" "username" 0 100])
           [alice; bob; carol; dan] None).
  reflexivity.
Defined.

(** The effects of the loop: requests for consecutive pages. *)
Lemma allUsers_loop_trace (w : World) (channelID : string) (limit : Z) (fuel : nat) :
  ∀ (page : nat) (acc : list User) (st : State),
    ∃ n : nat,
      (allUsers_loop w fuel channelID limit page acc st).2
      = mkState (ticks st) (trace st ++ fetches channelID page n).
Proof.
  induction fuel as [|fuel IH]; intros page acc st.
  - exists 0%nat. simpl. apply state_eta.
  - rewrite allUsers_loop_step. simpl.
    assert (Hone : emit (EvGetUsersInChannel channelID "username" page batchSize) st
                   = mkState (ticks st) (trace st ++ fetches channelID page 1)) by done.
    destruct (api_GetUsersInChannel w channelID "username" page batchSize) as [batch|msg];
      [|by exists 1%nat].
    repeat case_bool_decide; [by exists 1%nat | by exists 1%nat |].
    destruct (IH (S page) (acc ++ filter (λ user, IsBot user = false) batch)%list
                 (emit (EvGetUsersInChannel channelID "username" page batchSize) st))
      as [n Hn].
    exists (S n). rewrite Hn. unfold emit. simpl.
    by rewrite (fetches_S channelID page n), <- app_assoc.
Qed.

(** The revision without a limit does what the loop with a limit does, as
    long as the limit is not passed. *)
Lemma allUsers_unlimited_loop_agrees (w : World) (channelID : string) (limit : Z)
    (fuel : nat) :
  ∀ (page : nat) (acc : list User) (st st' : State) (users : list User) (err : option error),
    allUsers_loop w fuel channelID limit page acc st = (Val (users, err), st') →
    err ≠ Some errMaxChannelMembers →
    allUsers_unlimited_loop w fuel channelID page acc st
    = (Val (users, match err with
                   | Some (errors_New msg) => Some msg
                   | _ => None
                   end), st').
Proof.
  induction fuel as [|fuel IH]; intros page acc st st' users err; [done|].
  rewrite allUsers_loop_step. simpl. unfold bind, GetUsersInChannel.
  destruct (api_GetUsersInChannel w channelID "username" page batchSize) as [batch|msg].
  - simpl. case_bool_decide as Hover; [by intros [= <- <- <-] Herr|].
    case_bool_decide as Hshort; [by intros [= <- <- <-] _ | apply IH].
  - by intros [= <- <- <-] _.
Qed.

(** X15.  Adding the limit changed nothing for the channels that stay
    within it: when [allUsers] ends without the sentinel error, the
    revision without a limit returns the same members, or the same host
    error, after the same requests. *)
Theorem allUsers_unlimited_agrees (w : World) (fuel : nat) (channelID : string) (limit : Z)
    (st st' : State) (users : list User) (err : option error) :
  allUsers w fuel channelID limit st = (Val (users, err), st') →
  err ≠ Some errMaxChannelMembers →
  allUsers_unlimited w fuel channelID st
  = (Val (users, match err with
                 | Some (errors_New msg) => Some msg
                 | _ => None
                 end), st').
Proof. apply allUsers_unlimited_loop_agrees. Qed.

Lemma allUsers_unlimited_agrees_witness :
  allUsers_unlimited at_noon 3 "town-square" st0
  = (Val ([alice; bob; carol; dan], None),
     mkState 0 [EvGetUsersInChannel "town-square" "username" 0 100]).
Proof.
  apply (allUsers_unlimited_agrees at_noon 3 "town-square" 10 st0
           (mkState 0 [EvGetUsersInChannel "town-square" "username" 0 100])
           [alice; bob; carol; dan] None).
  - reflexivity.
  - discriminate.
Defined.

(** ** More about [ExecuteCommand] *)

(** The command up to the end of the fetch. *)
Lemma ExecuteCommand_fetch (w : World) (fuel : nat) (p : Plugin) (args : CommandArgs)
    (st : State) :
  index (gostrings.Fields (args_Command args)) 0 = Some "/whentochat" →
  ExecuteCommand w fuel p args st
  = match allUsers w fuel (args_ChannelId args) (MaxChannelMembers (getConfiguration p)) st with
    | (Val (users, Some (errors_New msg)), st1) => (Val (AppError msg), st1)
    | (Val (users, Some errMaxChannelMembers), st1) =>
        (Val CommandResponse,
         emit (EvSendEphemeralPost (args_UserId args)
                 (mkPost (BotUserID p) (args_ChannelId args) "Too many channel members.")) st1)
    | (Val (users, None), st1) =>
        let '((s, e, ok), st2) := window w users st1 in
        if ok then
          match arrangeUserFirst (args_UserId args) users with
          | None => (Panic, st2)
          | Some arranged =>
              match (if bool_decide (length arranged ≤ maxDisplayUserBullets)%nat
                     then Some (verboseDisplay w s e arranged)
                     else compactDisplay w s e arranged) with
              | Some message =>
                  (Val CommandResponse,
                   emit (EvSendEphemeralPost (args_UserId args)
                           (mkPost (BotUserID p) (args_ChannelId args)
                              ("It looks like the best times to chat are:"
                                 +:+ nl +:+ message))) st2)
              | None => (Panic, st2)
              end
          end
        else
          (Val CommandResponse,
           emit (EvSendEphemeralPost (args_UserId args)
                   (mkPost (BotUserID p) (args_ChannelId args)
                      "There is no window that suits everyone.")) st2)
    | (Panic, st1) => (Panic, st1)
    | (OutOfFuel, st1) => (OutOfFuel, st1)
    end.
Proof.
  intros Hcmd. unfold ExecuteCommand, bind, orPanic. rewrite Hcmd. unfold ret at 1.
  rewrite bool_decide_eq_false_2 by (intros H; by apply H).
  destruct (allUsers w fuel _ _ st) as [[[users [[|msg]|]]| |] st1]; try reflexivity.
  cbv beta iota delta [non_nil_and].
  destruct (window w users st1) as [[[s e] ok] st2].
  destruct ok; simpl; [|reflexivity].
  destruct (arrangeUserFirst (args_UserId args) users) as [arranged|]; simpl; [|reflexivity].
  case_bool_decide; simpl; [reflexivity|].
  by destruct (compactDisplay w s e arranged).
Qed.

(** X16.  When the host fails on page [k], after full pages within the
    limit, the command ends with an [AppError] that carries the host's
    text: the members fetched so far are dropped, nothing is posted, and
    no further page is asked for. *)
Theorem fetch_failure_is_command_error (w : World) (fuel : nat) (p : Plugin)
    (args : CommandArgs) (st : State) (k : nat) (msg : string) :
  let channelID := args_ChannelId args in
  let limit := MaxChannelMembers (getConfiguration p) in
  index (gostrings.Fields (args_Command args)) 0 = Some "/whentochat" →
  (k < fuel)%nat →
  (∀ j, (j < k)%nat →
     ∃ usersBatch,
       api_GetUsersInChannel w channelID "username" j batchSize = inl usersBatch ∧
       (batchSize ≤ length usersBatch)%nat ∧
       Z.of_nat (length (members_between w channelID 0 (S j))) ≤ limit) →
  api_GetUsersInChannel w channelID "username" k batchSize = inr msg →
  allUsers w fuel channelID limit st
    = (Val ([], Some (errors_New msg)),
       mkState (ticks st) (trace st ++ fetches channelID 0 (S k))) ∧
  ExecuteCommand w fuel p args st
    = (Val (AppError msg), mkState (ticks st) (trace st ++ fetches channelID 0 (S k))).
Proof.
  intros channelID limit Hcmd Hfuel Hfull Hfail.
  assert (Hfetch : allUsers w fuel channelID limit st
                   = (Val ([], Some (errors_New msg)),
                      mkState (ticks st) (trace st ++ fetches channelID 0 (S k)))).
  { replace fuel with (k + S (fuel - S k))%nat by lia.
    rewrite (allUsers_skip_full w channelID limit k _ st Hfull).
    rewrite allUsers_loop_step, Hfail. simpl.
    unfold emit. cbn [ticks trace].
    unfold fetches. by rewrite (seq_S k 0), map_app, app_assoc. }
  split; [exact Hfetch|].
  rewrite (ExecuteCommand_fetch w fuel p args st Hcmd).
  fold channelID limit. by rewrite Hfetch.
Qed.

Lemma fields_go_blank (s : string) : blank s = true → gostrings.fields_go "" s = [].
Proof.
  induction s as [|c s IH]; simpl; [done|].
  destruct (gostrings.asciiSpace c); simpl; [|done].
  intros Hblank. by apply IH.
Qed.

(** X17.  A command text that is empty or nothing but white space makes
    [ExecuteCommand] panic at [split[0]], before any effect. *)
Theorem blank_command_panics (w : World) (fuel : nat) (p : Plugin) (args : CommandArgs)
    (st : State) :
  blank (args_Command args) = true →
  ExecuteCommand w fuel p args st = (Panic, st).
Proof.
  intros Hblank. unfold ExecuteCommand, bind, orPanic, gostrings.Fields.
  by rewrite (fields_go_blank _ Hblank).
Qed.

Lemma blank_command_panics_witness :
  ExecuteCommand at_noon 3 (sample_plugin 10) (mkCommandArgs "u-bob" "town-square" "  ") st0
  = (Panic, st0).
Proof.
  apply (blank_command_panics at_noon 3 (sample_plugin 10)
           (mkCommandArgs "u-bob" "town-square" "  ") st0).
  reflexivity.
Defined.

(** X18.  A run that fetched the members and found no shared window posts
    the fixed sentence and stops there: the members are not rearranged and
    nothing is displayed. *)
Theorem no_window_reply (w : World) (fuel : nat) (p : Plugin) (args : CommandArgs)
    (st st1 st2 : State) (users : list User) (s e : time.Time) :
  index (gostrings.Fields (args_Command args)) 0 = Some "/whentochat" →
  allUsers w fuel (args_ChannelId args) (MaxChannelMembers (getConfiguration p)) st
    = (Val (users, None), st1) →
  window w users st1 = ((s, e, false), st2) →
  ExecuteCommand w fuel p args st
  = (Val CommandResponse,
     emit (EvSendEphemeralPost (args_UserId args)
             (mkPost (BotUserID p) (args_ChannelId args)
                "There is no window that suits everyone.")) st2).
Proof.
  intros Hcmd Hfetch Hwin.
  rewrite (ExecuteCommand_fetch w fuel p args st Hcmd), Hfetch. simpl.
  by rewrite Hwin.
Qed.

(** X19.  A channel whose only page is short and holds nothing but bots:
    [window] reports a window for the empty list, and the command panics
    in [arrangeUserFirst] without posting anything. *)
Theorem channel_of_bots_panics (w : World) (fuel : nat) (p : Plugin) (args : CommandArgs)
    (st : State) (usersBatch : list User) :
  let channelID := args_ChannelId args in
  index (gostrings.Fields (args_Command args)) 0 = Some "/whentochat" →
  (0 < fuel)%nat →
  api_GetUsersInChannel w channelID "username" 0 batchSize = inl usersBatch →
  (length usersBatch < batchSize)%nat →
  Forall (λ u, IsBot u = true) usersBatch →
  0 ≤ MaxChannelMembers (getConfiguration p) →
  ExecuteCommand w fuel p args st
  = (Panic, emit (EvGetUsersInChannel channelID "username" 0 batchSize) st).
Proof.
  intros channelID Hcmd Hfuel Hpage Hshort Hbots Hlimit.
  assert (Hnone : filter (λ user, IsBot user = false) usersBatch = []).
  { clear Hpage Hshort. induction Hbots as [|u rest Hu _ IH]; [done|].
    rewrite filter_cons_False by congruence. exact IH. }
  rewrite (ExecuteCommand_fetch w fuel p args st Hcmd). fold channelID.
  destruct fuel as [|fuel]; [lia|].
  unfold allUsers. rewrite allUsers_loop_step, Hpage. simpl. rewrite Hnone. simpl.
  rewrite bool_decide_eq_false_2 by lia.
  rewrite bool_decide_eq_true_2 by done.
  reflexivity.
Qed.

Lemma fetch_failure_is_command_error_witness :
  allUsers failing 5 "town-square" 1000 st0
    = (Val ([], Some (errors_New "connection refused")),
       mkState 0 ([] ++ fetches "town-square" 0 2)) ∧
  ExecuteCommand failing 5 (sample_plugin 1000) (whentochat_by "u-0") st0
    = (Val (AppError "connection refused"), mkState 0 ([] ++ fetches "town-square" 0 2)).
Proof.
  apply (fetch_failure_is_command_error failing 5 (sample_plugin 1000) (whentochat_by "u-0")
           st0 1 "connection refused").
  - reflexivity.
  - lia.
  - intros j Hj. assert (j = 0%nat) as -> by lia.
    eexists. split_and!; [reflexivity | vm_compute; lia | vm_compute; discriminate].
  - reflexivity.
Defined.

Lemma no_window_reply_witness :
  ExecuteCommand apart 3 (sample_plugin 10) (whentochat_by "u-erin") st0
  = (Val CommandResponse,
     emit (EvSendEphemeralPost "u-erin"
             (mkPost "bot-id" "town-square" "There is no window that suits everyone."))
          (mkState 2 [EvGetUsersInChannel "town-square" "username" 0 100; EvNow; EvNow])).
Proof.
  apply (no_window_reply apart 3 (sample_plugin 10) (whentochat_by "u-erin") st0
           (mkState 0 [EvGetUsersInChannel "town-square" "username" 0 100])
           (mkState 2 [EvGetUsersInChannel "town-square" "username" 0 100; EvNow; EvNow])
           [erin; fabio] 1728036000 1728036000);
    reflexivity.
Defined.

Lemma channel_of_bots_panics_witness :
  ExecuteCommand bots_only 3 (sample_plugin 10) (whentochat_by "u-bot") st0
  = (Panic, emit (EvGetUsersInChannel "town-square" "username" 0 batchSize) st0).
Proof.
  apply (channel_of_bots_panics bots_only 3 (sample_plugin 10) (whentochat_by "u-bot") st0
           [robot; robot]).
  - reflexivity.
  - lia.
  - reflexivity.
  - vm_compute. lia.
  - repeat constructor.
  - simpl. lia.
Defined.

Lemma posts_of_app (a b : list Event) : posts_of (a ++ b) = (posts_of a ++ posts_of b)%list.
Proof. apply omap_app. Qed.

Lemma posts_of_fetches (channelID : string) (n : nat) :
  ∀ page, posts_of (fetches channelID page n) = [].
Proof. induction n as [|n IH]; intros page; [done|]. rewrite fetches_S. simpl. apply IH. Qed.

Lemma posts_of_readings (n : nat) : posts_of (replicate n EvNow) = [].
Proof. induction n as [|n IH]; [done|]. simpl. apply IH. Qed.

(** X20.  However a run of the command ends, it has posted at most one
    message.  If it has posted one, that was its last effect, the run
    ended normally, and the message went to the invoker, in the channel
    of the command, under the bot's name. *)
Theorem replies_at_most_once (w : World) (fuel : nat) (p : Plugin) (args : CommandArgs)
    (st : State) :
  ∃ quiet : list Event,
    posts_of quiet = [] ∧
    (trace (ExecuteCommand w fuel p args st).2 = (trace st ++ quiet)%list ∨
     ((ExecuteCommand w fuel p args st).1 = Val CommandResponse ∧
      ∃ message,
        trace (ExecuteCommand w fuel p args st).2
        = (trace st ++ quiet
             ++ [EvSendEphemeralPost (args_UserId args)
                   (mkPost (BotUserID p) (args_ChannelId args) message)])%list)).
Proof.
  destruct (index (gostrings.Fields (args_Command args)) 0) as [command|] eqn:Hcmd.
  - destruct (decide (command = "/whentochat")) as [->|Hother].
    + rewrite (ExecuteCommand_fetch w fuel p args st Hcmd).
      destruct (allUsers_loop_trace w (args_ChannelId args)
                  (MaxChannelMembers (getConfiguration p)) fuel 0 [] st) as [n Hfetch].
      fold (allUsers w fuel (args_ChannelId args) (MaxChannelMembers (getConfiguration p)))
        in Hfetch.
      destruct (allUsers w fuel _ _ st) as [[[users [[|msg]|]]| |] st1];
        simpl in Hfetch; subst st1.
      * exists (fetches (args_ChannelId args) 0 n).
        split; [apply posts_of_fetches|]. right. split; [done|].
        eexists. simpl. by rewrite <- app_assoc.
      * exists (fetches (args_ChannelId args) 0 n).
        split; [apply posts_of_fetches|]. by left.
      * destruct (window_loop_clock w users 0 time.zero time.zero
                    (mkState (ticks st) (trace st ++ fetches (args_ChannelId args) 0 n)))
          as (m & Hwin & _).
        unfold window.
        destruct (window_loop w 0 users time.zero time.zero _) as [[[s e] ok] st2].
        simpl in Hwin. subst st2.
        exists (fetches (args_ChannelId args) 0 n ++ replicate m EvNow)%list.
        split; [by rewrite posts_of_app, posts_of_fetches, posts_of_readings|].
        destruct ok.
        -- destruct (arrangeUserFirst (args_UserId args) users) as [arranged|];
             [|left; simpl; by rewrite <- app_assoc].
           destruct (if bool_decide (length arranged ≤ maxDisplayUserBullets)%nat
                     then Some (verboseDisplay w s e arranged)
                     else compactDisplay w s e arranged) as [message|];
             [|left; simpl; by rewrite <- app_assoc].
           right. split; [done|]. eexists. simpl. by rewrite <- !app_assoc.
        -- right. split; [done|]. eexists. simpl. by rewrite <- !app_assoc.
      * exists (fetches (args_ChannelId args) 0 n).
        split; [apply posts_of_fetches|]. by left.
      * exists (fetches (args_ChannelId args) 0 n).
        split; [apply posts_of_fetches|]. by left.
    + exists []. split; [done|]. left.
      unfold ExecuteCommand, bind, orPanic. rewrite Hcmd. unfold ret at 1.
      rewrite bool_decide_eq_true_2 by done. simpl. by rewrite app_nil_r.
  - exists []. split; [done|]. left.
    unfold ExecuteCommand, bind, orPanic. rewrite Hcmd. simpl. by rewrite app_nil_r.
Qed.

(** The earlier command after a fetch without error. *)
Lemma ExecuteCommand_unlimited_fetched (w : World) (fuel : nat) (p : Plugin)
    (args : CommandArgs) (st st1 : State) (users : list User) :
  index (gostrings.Fields (args_Command args)) 0 = Some "/whentochat" →
  allUsers_unlimited w fuel (args_ChannelId args) st = (Val (users, None), st1) →
  ExecuteCommand_unlimited w fuel p args st
  = let '((s, e, ok), st2) := window w users st1 in
    if ok then
      match arrangeUserFirst (args_UserId args) users with
      | None => (Panic, st2)
      | Some arranged =>
          (Val EarlierResponse,
           emit (EvSendEphemeralPost (args_UserId args)
                   (mkPost (BotUserID p) (args_ChannelId args)
                      ("It looks like the best times to chat are:"
                         +:+ nl +:+ verboseDisplay w s e arranged))) st2)
      end
    else
      (Val EarlierResponse,
       emit (EvSendEphemeralPost (args_UserId args)
               (mkPost (BotUserID p) (args_ChannelId args)
                  "There is no window that suits everyone.")) st2).
Proof.
  intros Hcmd Hfetch.
  unfold ExecuteCommand_unlimited, bind, orPanic. rewrite Hcmd. unfold ret at 1.
  rewrite bool_decide_eq_false_2 by (intros H; by apply H).
  rewrite Hfetch. cbv beta iota.
  destruct (window w users st1) as [[[s e] ok] st2].
  destruct ok; simpl; [|reflexivity].
  destruct (arrangeUserFirst (args_UserId args) users) as [arranged|]; simpl; [|reflexivity].
  rewrite verboseDisplay_from. unfold SendEphemeralPost, ret. simpl.
  by rewrite string_app_assoc.
Qed.

(** X21.  For a channel within the limit and of at most 50 members, the
    command does what it did before the limit and the compact display were
    added: the same requests, the same readings of the clock, the same
    post, and the same kind of ending. *)
Theorem ExecuteCommand_unlimited_agrees (w : World) (fuel : nat) (p : Plugin)
    (args : CommandArgs) (st st1 : State) (users : list User) :
  index (gostrings.Fields (args_Command args)) 0 = Some "/whentochat" →
  allUsers w fuel (args_ChannelId args) (MaxChannelMembers (getConfiguration p)) st
    = (Val (users, None), st1) →
  (length users ≤ maxDisplayUserBullets)%nat →
  (ending (ExecuteCommand_unlimited w fuel p args st).1,
   (ExecuteCommand_unlimited w fuel p args st).2)
  = (ending (ExecuteCommand w fuel p args st).1, (ExecuteCommand w fuel p args st).2).
Proof.
  intros Hcmd Hfetch Hsmall.
  rewrite (ExecuteCommand_fetch w fuel p args st Hcmd), Hfetch.
  rewrite (ExecuteCommand_unlimited_fetched w fuel p args st st1 users Hcmd)
    by (by apply (allUsers_unlimited_loop_agrees w _ _ fuel 0 [] st st1 users None Hfetch)).
  destruct (window w users st1) as [[[s e] ok] st2].
  destruct ok; [|reflexivity].
  destruct (arrangeUserFirst (args_UserId args) users) as [arranged|] eqn:Harr;
    [|reflexivity].
  by rewrite bool_decide_eq_true_2
    by (by rewrite (arrangeUserFirst_length _ _ _ Harr)).
Qed.

Lemma ExecuteCommand_unlimited_agrees_witness :
  (ending (ExecuteCommand_unlimited at_noon 3 (sample_plugin 10) (whentochat_by "u-bob") st0).1,
   (ExecuteCommand_unlimited at_noon 3 (sample_plugin 10) (whentochat_by "u-bob") st0).2)
  = (ending (ExecuteCommand at_noon 3 (sample_plugin 10) (whentochat_by "u-bob") st0).1,
     (ExecuteCommand at_noon 3 (sample_plugin 10) (whentochat_by "u-bob") st0).2).
Proof.
  apply (ExecuteCommand_unlimited_agrees at_noon 3 (sample_plugin 10) (whentochat_by "u-bob")
           st0 (mkState 0 [EvGetUsersInChannel "town-square" "username" 0 100])
           [alice; bob; carol; dan]).
  - reflexivity.
  - reflexivity.
  - vm_compute. lia.
Defined.
